(** * tensorflow_hub/resolver.py: cache population protocol

    A shallow embedding of the module-resolution helpers of
    [tensorflow_hub/resolver.py]: cache-directory selection, lock record
    and path derivation, the staleness monitor, [atomic_download] and the
    progress reporter of [DownloadManager].

    Python values are modelled as follows.
    - [str] is [string]; [None]-or-string values are [option string].
    - The storage backend ([tf.compat.v1.gfile]) is an in-memory path
      namespace [gmap string node]: a path holds a file or a directory
      tree. Every call is recorded in a trace. Other tasks are present
      through what they left in the namespace and through what happens
      while the download callback runs.
    - Backend failures of the guarded file write are scheduled in the
      world ([write_faults]); the other primitives fail only as the
      namespace dictates (missing path, wrong kind of node).
    - [time.time()] is an integer number of seconds; [time.sleep]
      advances it.
    - Exceptions, [try]/[except]/[finally] and the two [while] loops live
      in a state-and-exception monad [M]; loops take fuel, and running out
      of fuel is a third outcome, distinct from returning and raising.
    - Helpers of [tf_utils] and [file_utils] are parameters or are
      modelled from the specification, as marked at each definition. *)

From Stdlib Require Import ZArith Ascii String List Lia.
From stdpp Require Import base option list gmap strings pretty sorting.

Local Open Scope Z_scope.
Local Open Scope string_scope.
Set Warnings "-register-all,-notation-for-abbreviation".

(** ** Python string helpers *)

Module Py.

(** [s.split(sep)] for a one-character separator. *)
Fixpoint split (sep : ascii) (s : string) : list string :=
  match s with
  | EmptyString => [EmptyString]
  | String c s' =>
      if decide (c = sep) then EmptyString :: split sep s'
      else match split sep s' with
           | f :: fs => String c f :: fs
           | [] => [String c EmptyString]
           end
  end.

(** [l[-1]] on a list of strings: [IndexError] is [None]. *)
Definition last_item (l : list string) : option string := last l.

(** [c in s] for a character. *)
Fixpoint contains (c : ascii) (s : string) : bool :=
  match s with
  | EmptyString => false
  | String d s' => if decide (d = c) then true else contains c s'
  end.

(** [s.endswith(suffix)]. *)
Definition endswith (s suffix : string) : bool :=
  let n := String.length s in
  let k := String.length suffix in
  (k <=? n)%nat && String.eqb (substring (n - k) k s) suffix.

(** [s.startswith(prefix)]. *)
Definition startswith (s pre : string) : bool := String.prefix pre s.

(** [s[0:-k]] for [k > 0]. *)
Definition drop_last (k : nat) (s : string) : string :=
  substring 0 (String.length s - k) s.

(** Truthiness of a string and of a string-or-[None]. *)
Definition truthy (s : string) : bool :=
  match s with EmptyString => false | _ => true end.

Definition truthy_opt (o : option string) : bool :=
  match o with Some s => truthy s | None => false end.

(** [a or b] on string-or-[None] values. *)
Definition or_ (a b : option string) : option string :=
  if truthy_opt a then a else b.

(** [posixpath.join(a, b)]. *)
Definition path_join (a b : string) : string :=
  if startswith b "/" then b
  else if negb (truthy a) || endswith a "/" then a +:+ b
  else a +:+ "/" +:+ b.

(** ["%-{n}s" % msg]: left-justified in a field of width [n]. *)
Fixpoint spaces (n : nat) : string :=
  match n with O => EmptyString | S k => String " " (spaces k) end.

Definition ljust (n : nat) (msg : string) : string :=
  msg +:+ spaces (n - String.length msg).

Definition newline : string := String (ascii_of_nat 10) EmptyString.
Definition carriage_return : string := String (ascii_of_nat 13) EmptyString.

End Py.

(** ** Cache directory selection (lines 63-110) *)

Definition _TFHUB_CACHE_DIR : string := "TFHUB_CACHE_DIR".
Definition _TFHUB_DOWNLOAD_PROGRESS : string := "TFHUB_DOWNLOAD_PROGRESS".
Definition _TFHUB_MODEL_LOAD_FORMAT : string := "TFHUB_MODEL_LOAD_FORMAT".

(** The process configuration read by this module: [os.environ], the
    parsed absl flag values and [tempfile.gettempdir()]. *)
Record Config := mkConfig {
  environ : gmap string string;
  FLAGS : gmap string (option string);
  gettempdir : string;
}.

(** [os.getenv(name, default)] with the empty string as default. *)
Definition getenv (cfg : Config) (name : string) : string :=
  default EmptyString (environ cfg !! name).

(** [FLAGS[flag_name].value]; both flags of this module are defined, an
    undefined name is read as [None]. *)
Definition flag_value (cfg : Config) (flag_name : string) : option string :=
  default None (FLAGS cfg !! flag_name).

Definition get_env_setting (cfg : Config) (env_var flag_name : string)
  : option string :=
  Py.or_ (Some (getenv cfg env_var)) (flag_value cfg flag_name).

Definition tfhub_cache_dir (cfg : Config)
  (default_cache_dir : option string) (use_temp : bool) : option string :=
  let cache_dir :=
    Py.or_ (get_env_setting cfg _TFHUB_CACHE_DIR "tfhub_cache_dir")
           default_cache_dir in
  let cache_dir :=
    if negb (Py.truthy_opt cache_dir) && use_temp
    then Some (Py.path_join (gettempdir cfg) "tfhub_modules")
    else cache_dir in
  cache_dir.

Definition model_load_format (cfg : Config) : option string :=
  get_env_setting cfg _TFHUB_MODEL_LOAD_FORMAT "tfhub_model_load_format".

(** [tfhub_cache_dir] also logs the chosen directory once
    ([logging.log_first_n]); the log line does not feed back into the
    returned value and is left out of the embedding. *)

(** ** Exceptions *)

(** The canonical error classes of [tf.errors.OpError]. *)
Inductive ErrCode :=
| Cancelled | Unknown | InvalidArgument | DeadlineExceeded | NotFound
| AlreadyExists | PermissionDenied | Unauthenticated | ResourceExhausted
| FailedPrecondition | Aborted | OutOfRange | Unimplemented | Internal
| Unavailable | DataLoss.

Inductive Exn :=
| OpError (code : ErrCode)          (* tf.errors.<code>Error *)
| IOError (msg : string)            (* the built-in IOError *)
| ValueError (msg : string)
| TarReadError                      (* tarfile.ReadError *)
| OtherError (name : string).       (* any other exception class *)

#[global] Instance ErrCode_eq_dec : EqDecision ErrCode.
Proof. solve_decision. Defined.

#[global] Instance Exn_eq_dec : EqDecision Exn.
Proof. solve_decision. Defined.

(** The exception class an [Exn] is an instance of. *)
Inductive ExnClass :=
| ClsOpError | ClsIOError | ClsValueError | ClsTarReadError | ClsOther.

Definition exn_class (e : Exn) : ExnClass :=
  match e with
  | OpError _ => ClsOpError
  | IOError _ => ClsIOError
  | ValueError _ => ClsValueError
  | TarReadError => ClsTarReadError
  | OtherError _ => ClsOther
  end.

(** ** Storage backend *)

(** What a path holds: a file with its content, or a directory with its
    named entries. [os.path.join(directory, elem)] followed by [Stat]
    reaches the entry [elem] of the directory node. *)
Inductive node :=
| File (content : string)
| Dir (entries : list (string * node)).

Inductive Event :=
| EvExists (path : string)
| EvListDirectory (path : string)
| EvRead (path : string)
| EvWrite (path contents : string) (overwrite : bool)
| EvRemove (path : string)
| EvDeleteRecursively (path : string)
| EvMakeDirs (path : string)
| EvRename (src dst : string)
| EvSleep (secs : Z)
| EvDownload (handle dir : string)
| EvLogInfo (msg : string)
| EvLogWarning (msg : string).

#[global] Instance Event_eq_dec : EqDecision Event.
Proof. solve_decision. Defined.

(** The world a call runs in. [write_faults] schedules backend failures
    of the guarded file write: the n-th write attempt fails with the
    n-th entry when that entry is [Some code]. *)
Record World := mkWorld {
  fs : gmap string node;
  clock : Z;
  write_faults : list (option ErrCode);
  trace : list Event;
}.

Definition set_fs (f : gmap string node) (w : World) : World :=
  mkWorld f (clock w) (write_faults w) (trace w).

Definition emit (e : Event) (w : World) : World :=
  mkWorld (fs w) (clock w) (write_faults w) (trace w ++ [e])%list.

Definition advance (secs : Z) (w : World) : World :=
  mkWorld (fs w) (clock w + secs) (write_faults w) (trace w).

Definition pop_fault (w : World) : World :=
  mkWorld (fs w) (clock w) (tail (write_faults w)) (trace w).

(** ** The state-and-exception monad *)

Inductive Res (A : Type) :=
| Ok (a : A)
| Raise (e : Exn)
| OutOfFuel.
Arguments Ok {A} a.
Arguments Raise {A} e.
Arguments OutOfFuel {A}.

Definition M (A : Type) : Type := World -> Res A * World.

Definition ret {A} (a : A) : M A := fun w => (Ok a, w).

Definition raise {A} (e : Exn) : M A := fun w => (Raise e, w).

Definition out_of_fuel {A} : M A := fun w => (OutOfFuel, w).

Definition bind {A B} (m : M A) (k : A -> M B) : M B :=
  fun w =>
    match m w with
    | (Ok a, w') => k a w'
    | (Raise e, w') => (Raise e, w')
    | (OutOfFuel, w') => (OutOfFuel, w')
    end.

#[global] Instance M_ret : MRet M := @ret.
#[global] Instance M_bind : MBind M := fun A B k m => bind m k.

(** [try: body except <classes>: handler]. The handler answers [None]
    for an exception its clauses do not match. *)
Definition try_except {A} (body : M A) (handler : Exn -> option (M A)) : M A :=
  fun w =>
    match body w with
    | (Raise e, w') =>
        match handler e with
        | Some h => h w'
        | None => (Raise e, w')
        end
    | r => r
    end.

(** [try: body finally: fin]. An exception of [fin] replaces the outcome
    of [body]. *)
Definition try_finally {A} (body : M A) (fin : M unit) : M A :=
  fun w =>
    match body w with
    | (OutOfFuel, w') => (OutOfFuel, w')
    | (r, w') =>
        match fin w' with
        | (Ok _, w'') => (r, w'')
        | (Raise e, w'') => (Raise e, w'')
        | (OutOfFuel, w'') => (OutOfFuel, w'')
        end
    end.

(** [except tf.errors.NotFoundError: <handler>]. *)
Definition on_not_found {A} (h : M A) (e : Exn) : option (M A) :=
  match e with
  | OpError NotFound => Some h
  | _ => None
  end.

(** *** Primitives of [tf.compat.v1.gfile], [time] and [logging] *)

Definition Exists (path : string) : M bool :=
  fun w => (Ok (bool_decide (is_Some (fs w !! path))), emit (EvExists path) w).

Definition ListDirectory (path : string) : M (list string) :=
  fun w =>
    let w' := emit (EvListDirectory path) w in
    match fs w !! path with
    | Some (Dir entries) => (Ok (map fst entries), w')
    | _ => (Raise (OpError NotFound), w')
    end.

Definition Remove (path : string) : M unit :=
  fun w =>
    let w' := emit (EvRemove path) w in
    match fs w !! path with
    | Some (File _) => (Ok tt, set_fs (delete path (fs w)) w')
    | Some (Dir _) => (Raise (OpError FailedPrecondition), w')
    | None => (Raise (OpError NotFound), w')
    end.

Definition DeleteRecursively (path : string) : M unit :=
  fun w =>
    let w' := emit (EvDeleteRecursively path) w in
    match fs w !! path with
    | Some _ => (Ok tt, set_fs (delete path (fs w)) w')
    | None => (Raise (OpError NotFound), w')
    end.

Definition MakeDirs (path : string) : M unit :=
  fun w =>
    let w' := emit (EvMakeDirs path) w in
    match fs w !! path with
    | None => (Ok tt, set_fs (<[path := Dir []]> (fs w)) w')
    | Some (Dir _) => (Ok tt, w')
    | Some (File _) => (Raise (OpError FailedPrecondition), w')
    end.

(** [Rename(src, dst)] with the default [overwrite=False]. *)
Definition Rename (src dst : string) : M unit :=
  fun w =>
    let w' := emit (EvRename src dst) w in
    match fs w !! dst with
    | Some _ => (Raise (OpError AlreadyExists), w')
    | None =>
        match fs w !! src with
        | Some n => (Ok tt, set_fs (<[dst := n]> (delete src (fs w))) w')
        | None => (Raise (OpError NotFound), w')
        end
    end.

Definition time_time : M Z := fun w => (Ok (clock w), w).

Definition time_sleep (secs : Z) : M unit :=
  fun w => (Ok tt, advance secs (emit (EvSleep secs) w)).

Definition logging_info (msg : string) : M unit :=
  fun w => (Ok tt, emit (EvLogInfo msg) w).

Definition logging_warning (msg : string) : M unit :=
  fun w => (Ok tt, emit (EvLogWarning msg) w).

(** Modelled from the spec: [tf_utils.read_file_to_string] is the storage
    capability [readString(path)]; a missing path is a not-found error. *)
Definition read_file_to_string (path : string) : M string :=
  fun w =>
    let w' := emit (EvRead path) w in
    match fs w !! path with
    | Some (File c) => (Ok c, w')
    | Some (Dir _) => (Raise (OpError FailedPrecondition), w')
    | None => (Raise (OpError NotFound), w')
    end.

(** Modelled from the spec: [tf_utils.atomic_write_string_to_file] is the
    storage capability [writeStringExclusive(path, content)], which fails
    if the path exists unless overwrite is requested. A scheduled backend
    fault makes the attempt fail with that error class instead. *)
Definition atomic_write_string_to_file
  (filename contents : string) (overwrite : bool) : M unit :=
  fun w =>
    let w' := pop_fault (emit (EvWrite filename contents overwrite) w) in
    match write_faults w with
    | Some code :: _ => (Raise (OpError code), w')
    | _ =>
        if negb overwrite && bool_decide (is_Some (fs w !! filename))
        then (Raise (OpError AlreadyExists), w')
        else (Ok tt, set_fs (<[filename := File contents]> (fs w)) w')
    end.

(** ** Lock record, path derivation and the cache population protocol *)

(** The caller-supplied download callback: it receives the handle and the
    temporary directory, acts on the storage namespace and either returns
    or raises. Whatever other tasks do to the namespace while the download
    runs is part of its effect. *)
Definition DownloadFn : Type :=
  string -> string -> gmap string node -> option Exn * gmap string node.

(** What the lock acquisition loop of [atomic_download] ends with:
    [break] (the lock is held) or [return module_dir]. *)
Inductive Acquisition :=
| LockAcquired
| ModuleFound.

(** The lock file holds exactly the given content. *)
Definition lock_owned (f : gmap string node) (lock_file lock_contents : string)
  : bool :=
  match f !! lock_file with
  | Some (File c) => String.eqb c lock_contents
  | _ => false
  end.

(** [Rename] calls among recorded events. *)
Definition is_rename (e : Event) : bool :=
  match e with EvRename _ _ => true | _ => false end.

(** Every event a computation records satisfies [P]. *)
Definition emits_only (P : Event -> Prop) {A} (m : M A) : Prop :=
  forall w, exists evs, trace (m w).2 = (trace w ++ evs)%list /\ Forall P evs.

(** The local variables of [_wait_for_lock_to_disappear]. *)
Record WaitVars := mkWaitVars {
  locked_tmp_dir_size : Z;
  locked_tmp_dir_size_check_time : Z;
  lock_file_content : option string;
}.

(** How one iteration of a [while] body ends. *)
Inductive LoopCtl (S : Type) :=
| Break
| Next (s : S).
Arguments Break {S}.
Arguments Next {S} s.

(** Total size below a node: [stat.length] of a file, the sum over the
    entries of a directory. *)
Fixpoint node_size (n : node) : Z :=
  match n with
  | File content => Z.of_nat (String.length content)
  | Dir entries =>
      (fix sum_entries (es : list (string * node)) : Z :=
         match es with
         | [] => 0
         | (_, child) :: es' => node_size child + sum_entries es'
         end) entries
  end.

(** The size [_dir_size] reports for a directory, and the [0] that
    [_locked_tmp_dir_size] substitutes when the directory is not found. *)
Definition observed_size (f : gmap string node) (directory : string) : Z :=
  match f !! directory with
  | Some (Dir entries) => node_size (Dir entries)
  | _ => 0
  end.

Section Resolver.

(** [tf_utils.absolute_path], [socket.gethostname()], [os.getpid()] and
    [str(datetime.datetime.today())] at a given clock value. *)
Variable absolute_path : string -> string.
Variable hostname : string.
Variable pid : Z.
Variable today : Z -> string.

Definition _module_descriptor_file (module_dir : string) : string :=
  module_dir +:+ ".descriptor.txt".

Definition _write_module_descriptor_file (handle module_dir : string)
  : M unit :=
  let readme := _module_descriptor_file module_dir in
  now ← time_time;
  let readme_content :=
    "Module: " +:+ handle +:+ Py.newline +:+
    "Download Time: " +:+ today now +:+ Py.newline +:+
    "Downloader Hostname: " +:+ hostname +:+ " (PID:" +:+ pretty pid +:+ ")" in
  atomic_write_string_to_file readme readme_content true.

Definition _lock_file_contents (task_uid : string) : string :=
  hostname +:+ "." +:+ pretty pid +:+ "." +:+ task_uid.

Definition _lock_filename (module_dir : string) : string :=
  absolute_path module_dir +:+ ".lock".

Definition _module_dir (lock_filename : string) : M string :=
  if negb (Py.endswith lock_filename ".lock")
  then raise (ValueError ("Lock file name (" +:+ lock_filename +:+
                          ") has to end with .lock."))
  else ret (Py.drop_last (String.length ".lock") lock_filename).

(** [lock.split(".")[-1]] on the text of a lock file. *)
Definition task_uid_of_lock (lock : string) : string :=
  default EmptyString (Py.last_item (Py.split "." lock)).

Definition _task_uid_from_lock_file (lock_filename : string) : M string :=
  lock ← read_file_to_string lock_filename;
  ret (task_uid_of_lock lock).

Definition _temp_download_dir (module_dir task_uid : string) : string :=
  absolute_path module_dir +:+ "." +:+ task_uid +:+ ".tmp".

(** [ListDirectory] of the directory, then one [Stat] per element and
    the recursion into sub-directories, which is [node_size]. *)
Definition _dir_size (directory : string) : M Z :=
  fun w =>
    let w' := emit (EvListDirectory directory) w in
    match fs w !! directory with
    | Some (Dir entries) => (Ok (node_size (Dir entries)), w')
    | _ => (Raise (OpError NotFound), w')
    end.

Definition _locked_tmp_dir_size (lock_filename : string) : M Z :=
  task_uid ← _task_uid_from_lock_file lock_filename;
  try_except
    (module_dir ← _module_dir lock_filename;
     _dir_size (_temp_download_dir module_dir task_uid))
    (on_not_found (ret 0)).

(** The body of the [while] loop of [_wait_for_lock_to_disappear]
    (lines 307-336): the [try] with its [except NotFoundError: pass]
    and its [finally: time.sleep(5)]. *)
Definition wait_iteration (handle lock_file : string)
  (lock_file_timeout_sec : Z) (v : WaitVars) : M (LoopCtl WaitVars) :=
  try_finally
    (try_except
       (_ ← read_file_to_string lock_file;     (* logged every 10th time *)
        now ← time_time;
        if (now - locked_tmp_dir_size_check_time v >? lock_file_timeout_sec)%Z
        then
          cur_locked_tmp_dir_size ← _locked_tmp_dir_size lock_file;
          cur_lock_file_content ← read_file_to_string lock_file;
          if (cur_locked_tmp_dir_size =? locked_tmp_dir_size v)%Z &&
             bool_decide (Some cur_lock_file_content = lock_file_content v)
          then
            logging_warning ("Deleting lock file " +:+ lock_file +:+
                             " due to inactivity.");;
            Remove lock_file;;
            ret Break
          else
            now' ← time_time;
            ret (Next (mkWaitVars cur_locked_tmp_dir_size now'
                                  (Some cur_lock_file_content)))
        else ret (Next v))
       (on_not_found (ret (Next v))))
    (time_sleep 5).

Fixpoint wait_loop (fuel : nat) (handle lock_file : string)
  (lock_file_timeout_sec : Z) (v : WaitVars) : M unit :=
  match fuel with
  | O => out_of_fuel
  | S fuel' =>
      present ← Exists lock_file;
      if present : bool then
        ctl ← wait_iteration handle lock_file lock_file_timeout_sec v;
        match ctl with
        | Break => ret tt
        | Next v' => wait_loop fuel' handle lock_file lock_file_timeout_sec v'
        end
      else ret tt
  end.

Definition _wait_for_lock_to_disappear (fuel : nat)
  (handle lock_file : string) (lock_file_timeout_sec : Z) : M unit :=
  now ← time_time;
  wait_loop fuel handle lock_file lock_file_timeout_sec
    (mkWaitVars 0 now None).

Definition check_module_exists (module_dir : string) : M bool :=
  present ← Exists module_dir;
  if present : bool then
    elems ← ListDirectory module_dir;
    ret (bool_decide (elems ≠ []))
  else ret false.

(** The error classes re-raised by the first [except] clause of the
    acquisition loop. *)
Definition permanent (code : ErrCode) : bool :=
  match code with
  | NotFound | PermissionDenied | Unauthenticated | ResourceExhausted
  | Internal | InvalidArgument | Unimplemented => true
  | _ => false
  end.

(** The two [except] clauses of the acquisition loop: the listed
    classes are re-raised, every other [OpError] is swallowed. *)
Definition acquisition_handler (e : Exn)
  : option (M (option Acquisition)) :=
  match e with
  | OpError code => if permanent code then Some (raise e) else Some (ret None)
  | _ => None
  end.

(** The [try] block inside [while True] (lines 383-392): [Some] when
    the loop is left, by [return] or by [break]. *)
Definition acquisition_attempt
  (module_dir lock_file lock_contents : string) : M (option Acquisition) :=
  try_except
    (atomic_write_string_to_file lock_file lock_contents false;;
     found ← check_module_exists module_dir;
     if found : bool then ret (Some ModuleFound)
     else
       present ← Exists module_dir;
       (if present : bool then DeleteRecursively module_dir else ret tt);;
       ret (Some LockAcquired))
    acquisition_handler.

(** The [while True] loop of [atomic_download] (lines 381-413). *)
Fixpoint acquisition_loop (fuel : nat)
  (handle module_dir lock_file lock_contents : string)
  (lock_file_timeout_sec : Z) : M Acquisition :=
  match fuel with
  | O => out_of_fuel
  | S fuel' =>
      r ← acquisition_attempt module_dir lock_file lock_contents;
      match r with
      | Some a => ret a
      | None =>
          _wait_for_lock_to_disappear fuel' handle lock_file
            lock_file_timeout_sec;;
          acquisition_loop fuel' handle module_dir lock_file lock_contents
            lock_file_timeout_sec
      end
  end.

Definition call_download_fn (download_fn : DownloadFn)
  (handle tmp_dir : string) : M unit :=
  fun w =>
    let w' := emit (EvDownload handle tmp_dir) w in
    match download_fn handle tmp_dir (fs w) with
    | (None, f) => (Ok tt, set_fs f w')
    | (Some e, f) => (Raise e, set_fs f w')
    end.

(** The [finally] clause of [atomic_download] (lines 435-450). *)
Definition cleanup (tmp_dir lock_file lock_contents : string) : M unit :=
  try_except (DeleteRecursively tmp_dir) (on_not_found (ret tt));;
  contents ← try_except (read_file_to_string lock_file)
                        (on_not_found (ret EmptyString));
  if String.eqb contents lock_contents
  then try_except (Remove lock_file) (on_not_found (ret tt))
  else ret tt.

(** [task_uid] is the value of [uuid.uuid4().hex]. *)
Definition atomic_download (fuel : nat) (task_uid : string)
  (handle : string) (download_fn : DownloadFn) (module_dir : string)
  (lock_file_timeout_sec : Z) : M string :=
  let lock_file := _lock_filename module_dir in
  let lock_contents := _lock_file_contents task_uid in
  let tmp_dir := _temp_download_dir module_dir task_uid in
  found ← check_module_exists module_dir;
  if found : bool then ret module_dir
  else
    try_finally
      (a ← acquisition_loop fuel handle module_dir lock_file lock_contents
             lock_file_timeout_sec;
       match a with
       | ModuleFound => ret module_dir
       | LockAcquired =>
           logging_info ("Downloading TF-Hub Module '" +:+ handle +:+ "'.");;
           MakeDirs tmp_dir;;
           call_download_fn download_fn handle tmp_dir;;
           _write_module_descriptor_file handle module_dir;;
           try_except
             (Rename tmp_dir module_dir;;
              logging_info ("Downloaded TF-Hub Module '" +:+ handle +:+ "'."))
             (fun e => match e with
                       | OpError AlreadyExists =>
                           Some (logging_warning
                                   ("Module already exists in " +:+ module_dir))
                       | _ => None
                       end);;
           ret module_dir
       end)
      (cleanup tmp_dir lock_file lock_contents).

(** [PathResolver.__call__] (lines 494-497). *)
Definition PathResolver_call (handle : string) : M string :=
  present ← Exists handle;
  if present : bool then ret handle
  else raise (IOError (handle +:+ " does not exist.")).

End Resolver.

(** ** DownloadManager: progress reporting (lines 124-200) *)

Module DownloadManager.

Record t := mk {
  _url : string;
  _last_progress_msg_print_time : Z;
  _total_bytes_downloaded : Z;
  _max_prog_str : nat;
}.

(** What the reporter writes: to the console, or to the TF log. *)
Inductive Output :=
| StdoutWrite (s : string)
| StdoutFlush
| Print (s : string)
| LoggingInfo (msg : string).

(** A progress message, as opposed to a flush or a line break. *)
Definition is_message (o : Output) : bool :=
  match o with
  | StdoutWrite _ | LoggingInfo _ => true
  | StdoutFlush | Print _ => false
  end.

(** One invocation of the [log_function] callback: the byte count it
    passes, and the process configuration and clock at that moment. *)
Record Call := mkCall {
  call_bytes : Z;
  call_cfg : Config;
  call_now : Z;
}.

(** The invocation runs with interactive progress switched on. *)
Definition interactive (c : Call) : Prop :=
  Py.truthy (getenv (call_cfg c) _TFHUB_DOWNLOAD_PROGRESS) = true.

(** The invocation runs with interactive progress switched off. *)
Definition quiet (c : Call) : Prop :=
  Py.truthy (getenv (call_cfg c) _TFHUB_DOWNLOAD_PROGRESS) = false.

(** Modelled from the spec: [file_utils.extract_tarfile_to_destination]
    streams the archive into the destination and reports byte counts
    through [log_function]; it returns, or raises what the tar reader
    raises. Its run is the calls it makes, then its outcome and the
    configuration in force when it ends. *)
Record Extraction := mkExtraction {
  log_calls : list Call;
  outcome : option Exn;
  end_cfg : Config;
}.

Definition __init__ (url : string) (now : Z) : t :=
  mk url now 0 0.

Definition _interactive_mode (cfg : Config) : string :=
  getenv cfg _TFHUB_DOWNLOAD_PROGRESS.

Definition _print_download_progress_msg (self : t) (cfg : Config)
  (msg : string) (flush : bool) : t * list Output :=
  if Py.truthy (_interactive_mode cfg) then
    let width := Nat.max (_max_prog_str self) (String.length msg) in
    let self' := mk (_url self) (_last_progress_msg_print_time self)
                    (_total_bytes_downloaded self) width in
    (self',
     ([StdoutWrite (Py.carriage_return +:+ Py.ljust width msg); StdoutFlush]
      ++ (if flush then [Print Py.newline] else []))%list)
  else (self, [LoggingInfo msg]).

Section Reporter.

(** [tf_utils.bytes_to_readable_str(num_bytes, include_b)]. *)
Variable bytes_to_readable_str : Z -> bool -> string.

Definition _log_progress (self : t) (c : Call) : t * list Output :=
  let self1 := mk (_url self) (_last_progress_msg_print_time self)
                  (_total_bytes_downloaded self + call_bytes c)
                  (_max_prog_str self) in
  let now := call_now c in
  if Py.truthy (_interactive_mode (call_cfg c)) ||
     (now - _last_progress_msg_print_time self1 >? 15)%Z
  then
    let '(self2, out) :=
      _print_download_progress_msg self1 (call_cfg c)
        ("Downloading " +:+ _url self1 +:+ ": " +:+
         bytes_to_readable_str (_total_bytes_downloaded self1) true)
        false in
    (mk (_url self2) now (_total_bytes_downloaded self2)
        (_max_prog_str self2), out)
  else (self1, []).

(** The successive [log_function] calls of one extraction. *)
Fixpoint log_progress_calls (self : t) (calls : list Call)
  : t * list Output :=
  match calls with
  | [] => (self, [])
  | c :: calls' =>
      let '(self1, out1) := _log_progress self c in
      let '(self2, out2) := log_progress_calls self1 calls' in
      (self2, (out1 ++ out2)%list)
  end.

(** The clock values of the invocations that emitted a message. *)
Fixpoint emission_times (self : t) (calls : list Call) : list Z :=
  match calls with
  | [] => []
  | c :: calls' =>
      let '(self1, out1) := _log_progress self c in
      ((if existsb is_message out1 then [call_now c] else [])
       ++ emission_times self1 calls')%list
  end.

Definition download_and_uncompress (self : t) (x : Extraction)
  : Res unit * t * list Output :=
  let '(self1, out1) := log_progress_calls self (log_calls x) in
  match outcome x with
  | None =>
      let total_size_str :=
        bytes_to_readable_str (_total_bytes_downloaded self1) true in
      let '(self2, out2) :=
        _print_download_progress_msg self1 (end_cfg x)
          ("Downloaded " +:+ _url self1 +:+ ", Total size: " +:+
           total_size_str)
          true in
      (Ok tt, self2, (out1 ++ out2)%list)
  | Some TarReadError =>
      (Raise (IOError (_url self1 +:+
                       " does not appear to be a valid module.")),
       self1, out1)
  | Some e => (Raise e, self1, out1)
  end.

End Reporter.

End DownloadManager.

(** ** Module directory creation and resolvers (lines 118-121, 486-541) *)

(** [create_local_module_dir] (lines 118-121). *)
Definition create_local_module_dir (cache_dir module_name : string)
  : M string :=
  MakeDirs cache_dir;;
  ret (Py.path_join cache_dir module_name).

(** [PathResolver.is_supported] (lines 489-492). *)
Definition PathResolver_is_supported (handle : string) : bool := true.

(** The two attributes of an [ssl.SSLContext] this module writes. *)
Inductive VerifyMode :=
| CERT_NONE
| CERT_OPTIONAL
| CERT_REQUIRED.

Record SSLContext := mkSSLContext {
  check_hostname : bool;
  verify_mode : VerifyMode;
}.

(** [ssl.create_default_context()]: host names are checked and a
    certificate is required. *)
Definition create_default_context : SSLContext :=
  mkSSLContext true CERT_REQUIRED.

Definition _TFHUB_DISABLE_CERT_VALIDATION : string :=
  "TFHUB_DISABLE_CERT_VALIDATION".
Definition _TFHUB_DISABLE_CERT_VALIDATION_VALUE : string := "true".

(** [os.getenv(name)]: [None] for an unset variable. *)
Definition getenv_opt (cfg : Config) (name : string) : option string :=
  environ cfg !! name.

(** [HttpResolverBase._maybe_disable_cert_validation] (lines 530-541):
    the context after the call, and whether the warning was logged. *)
Definition _maybe_disable_cert_validation (cfg : Config) (context : SSLContext)
  : SSLContext * bool :=
  match getenv_opt cfg _TFHUB_DISABLE_CERT_VALIDATION with
  | Some v =>
      if String.eqb v _TFHUB_DISABLE_CERT_VALIDATION_VALUE
      then (mkSSLContext false CERT_NONE, true)
      else (context, false)
  | None => (context, false)
  end.

(** [HttpResolverBase.__init__] (lines 503-505): the context the resolver
    starts with. *)
Definition HttpResolverBase_init (cfg : Config) : SSLContext :=
  (_maybe_disable_cert_validation cfg create_default_context).1.

(** [HttpResolverBase.is_http_protocol] (lines 527-528). *)
Definition is_http_protocol (handle : string) : bool :=
  Py.startswith handle "http://" || Py.startswith handle "https://".

(** ** Vocabulary for the properties *)

(** A computation that leaves the namespace, the clock and the fault
    schedule as they are (it may record events). *)
Definition read_only {A} (m : M A) : Prop :=
  forall w,
    fs (m w).2 = fs w /\ clock (m w).2 = clock w
    /\ write_faults (m w).2 = write_faults w.

(** No backend fault is scheduled. *)
Definition fault_free (w : World) : Prop :=
  Forall (fun o => o = None) (write_faults w).

(** Console writes among the reporter's output. *)
Definition is_console (o : DownloadManager.Output) : bool :=
  match o with
  | DownloadManager.LoggingInfo _ => false
  | _ => true
  end.

(** The lines written to the console, in order. *)
Fixpoint console_lines (out : list DownloadManager.Output) : list string :=
  match out with
  | [] => []
  | DownloadManager.StdoutWrite s :: out' => s :: console_lines out'
  | _ :: out' => console_lines out'
  end.

(** The byte counts of a list of calls, summed. *)
Definition total_bytes (calls : list DownloadManager.Call) : Z :=
  foldr (fun c acc => DownloadManager.call_bytes c + acc) 0 calls.

(** ** Example inputs *)

Module Ex.

(** A process whose module directories are already absolute. *)
Definition absolute_path (p : string) : string := p.
Definition hostname : string := "worker.example".
Definition pid : Z := 4242.
Definition today (now : Z) : string := "2018-03-01 12:00:00".
Definition bytes_to_readable_str (n : Z) (include_b : bool) : string :=
  pretty n +:+ (if include_b then "B" else EmptyString).

Definition module_dir : string := "/cache/m".
Definition handle : string := "https://example.org/m".

Definition uid : string := "5d41402abc4b2a76".
Definition other_uid : string := "7d793037a0760186".

(** Nothing cached, nobody holding the lock. *)
Definition empty_world : World := mkWorld ∅ 100 [] [].

(** The module is already in the cache. *)
Definition cached_world : World :=
  mkWorld {[ module_dir := Dir [("saved_model.pb", File "model")] ]} 100 [] [].

(** A holder on another host wrote its lock and then disappeared. *)
Definition abandoned_world : World :=
  mkWorld {[ "/cache/m.lock" := File "gone.example.17.7d793037a0760186" ]}
          100 [] [].

(** The first lock creation attempt fails with the given class. *)
Definition faulty_world (code : ErrCode) : World :=
  mkWorld ∅ 100 [Some code] [].

Definition artifact : node := Dir [("saved_model.pb", File "model")].

(** A download that fills the temporary directory. *)
Definition download_ok : DownloadFn :=
  fun _ dir f => (None, <[dir := artifact]> f).

(** A download that leaves a partial file behind and fails. *)
Definition download_fails : DownloadFn :=
  fun _ dir f =>
    (Some (IOError "connection reset"), <[dir := Dir [("part", File "mo")]]> f).

(** A download during which another task publishes the module. *)
Definition download_raced : DownloadFn :=
  fun _ dir f =>
    (None, <[module_dir := Dir [("theirs", File "x")]]> (<[dir := artifact]> f)).

Definition quiet_cfg : Config := mkConfig ∅ ∅ "/tmp".
Definition interactive_cfg : Config :=
  mkConfig {[ _TFHUB_DOWNLOAD_PROGRESS := "1" ]} ∅ "/tmp".

(** A cache directory set through the environment. *)
Definition env_cfg : Config :=
  mkConfig {[ _TFHUB_CACHE_DIR := "/data/hub" ]}
           {[ "tfhub_cache_dir" := Some "/flag/hub" ]} "/tmp".

(** A manager created at time 100, and chunks reported to it. *)
Definition manager : DownloadManager.t :=
  DownloadManager.__init__ handle 100.

Definition quiet_calls : list DownloadManager.Call :=
  [DownloadManager.mkCall 1000 quiet_cfg 110;
   DownloadManager.mkCall 1000 quiet_cfg 116;
   DownloadManager.mkCall 500 quiet_cfg 130;
   DownloadManager.mkCall 10 quiet_cfg 132].

Definition good_archive : DownloadManager.Extraction :=
  DownloadManager.mkExtraction quiet_calls None quiet_cfg.

(** The stream is not a tar archive. *)
Definition bad_archive : DownloadManager.Extraction :=
  DownloadManager.mkExtraction [] (Some TarReadError) quiet_cfg.

(** The lock of a holder on this host that is still at work: its
    temporary directory holds a partial file. *)
Definition held_world : World :=
  mkWorld {[ "/cache/m.lock" := File "worker.example.4242.7d793037a0760186";
             "/cache/m.7d793037a0760186.tmp" := Dir [("part", File "mo")] ]}
          100 [] [].

(** Chunks reported within the first 15 seconds. *)
Definition early_calls : list DownloadManager.Call :=
  [DownloadManager.mkCall 1000 quiet_cfg 104;
   DownloadManager.mkCall 24 quiet_cfg 115].

(** Chunks reported with interactive progress on. *)
Definition interactive_calls : list DownloadManager.Call :=
  [DownloadManager.mkCall 1000 interactive_cfg 101;
   DownloadManager.mkCall 123456 interactive_cfg 102;
   DownloadManager.mkCall 1 interactive_cfg 103].

(** The stream breaks off with a backend error. *)
Definition broken_archive : DownloadManager.Extraction :=
  DownloadManager.mkExtraction quiet_calls (Some (OpError DataLoss)) quiet_cfg.

(** Certificate validation switched off, and a value that does not
    switch it off. *)
Definition no_cert_cfg : Config :=
  mkConfig {[ _TFHUB_DISABLE_CERT_VALIDATION := "true" ]} ∅ "/tmp".
Definition upper_cert_cfg : Config :=
  mkConfig {[ _TFHUB_DISABLE_CERT_VALIDATION := "True" ]} ∅ "/tmp".

End Ex.

(** * Properties *)

Set Default Proof Using "Type".

(** ** Lists *)

Lemma filter_none {A} (P : A → Prop) `{!∀ x, Decision (P x)} (l : list A) :
  Forall (λ x, ¬ P x) l → filter P l = [].
Proof.
  induction 1 as [|x l Hx Hl IH]; [done|].
  by rewrite filter_cons_False.
Qed.

(** ** Strings *)

Section StringFacts.

Lemma append_cons (x : ascii) (a b : string) :
  String x a +:+ b = String x (a +:+ b).
Proof. reflexivity. Qed.

Lemma append_nil_l (b : string) : EmptyString +:+ b = b.
Proof. reflexivity. Qed.

Lemma append_assoc (a b c : string) : (a +:+ b) +:+ c = a +:+ (b +:+ c).
Proof.
  induction a as [|x a IH]; [done|].
  by rewrite !append_cons, IH.
Qed.

Lemma length_append (a b : string) :
  String.length (a +:+ b) = (String.length a + String.length b)%nat.
Proof.
  induction a as [|x a IH]; [done|].
  rewrite append_cons. simpl. by rewrite IH.
Qed.

Lemma substring_all (b : string) : substring 0 (String.length b) b = b.
Proof. induction b as [|y b IH]; simpl; [done | by rewrite IH]. Qed.

Lemma substring_append_l (a b : string) :
  substring 0 (String.length a) (a +:+ b) = a.
Proof.
  induction a as [|x a IH]; [by destruct b|].
  rewrite append_cons. simpl. by rewrite IH.
Qed.

Lemma substring_append_r (a b : string) :
  substring (String.length a) (String.length b) (a +:+ b) = b.
Proof.
  induction a as [|x a IH]; [apply substring_all|].
  rewrite append_cons. simpl. exact IH.
Qed.

Lemma endswith_append (a suffix : string) :
  Py.endswith (a +:+ suffix) suffix = true.
Proof.
  unfold Py.endswith. rewrite length_append.
  replace (String.length a + String.length suffix - String.length suffix)%nat
    with (String.length a) by lia.
  rewrite substring_append_r, String.eqb_refl.
  rewrite andb_true_r. apply Nat.leb_le. lia.
Qed.

Lemma drop_last_append (a suffix : string) :
  Py.drop_last (String.length suffix) (a +:+ suffix) = a.
Proof.
  unfold Py.drop_last. rewrite length_append.
  replace (String.length a + String.length suffix - String.length suffix)%nat
    with (String.length a) by lia.
  apply substring_append_l.
Qed.

Lemma split_nonempty (sep : ascii) (s : string) : Py.split sep s ≠ [].
Proof.
  destruct s as [|c s]; simpl; [done|].
  case_decide; [done|]. by destruct (Py.split sep s).
Qed.

Lemma split_append_sep (sep : ascii) (p u : string) :
  Py.split sep (p +:+ String sep u) = (Py.split sep p ++ Py.split sep u)%list.
Proof.
  induction p as [|c p IH]; [rewrite append_nil_l | rewrite append_cons]; simpl.
  - by rewrite decide_True.
  - case_decide; [by rewrite IH|].
    rewrite IH. pose proof (split_nonempty sep p).
    by destruct (Py.split sep p).
Qed.

Lemma split_without_sep (sep : ascii) (u : string) :
  Py.contains sep u = false → Py.split sep u = [u].
Proof.
  induction u as [|c u IH]; simpl; [done|].
  case_decide; [done|]. intros Hu. by rewrite IH.
Qed.

Lemma last_field_after_sep (sep : ascii) (p u : string) :
  Py.contains sep u = false →
  Py.last_item (Py.split sep (p +:+ String sep u)) = Some u.
Proof.
  intros Hu. unfold Py.last_item.
  rewrite split_append_sep, last_app, split_without_sep by done.
  done.
Qed.

Lemma append_inj_r (a b c : string) : a +:+ c = b +:+ c → a = b.
Proof.
  revert b. induction a as [|x a IH]; intros [|y b] Heq; [done| | |].
  - apply (f_equal String.length) in Heq.
    rewrite append_nil_l, append_cons in Heq. simpl in Heq.
    rewrite length_append in Heq. lia.
  - apply (f_equal String.length) in Heq.
    rewrite append_nil_l, append_cons in Heq. simpl in Heq.
    rewrite length_append in Heq. lia.
  - rewrite !append_cons in Heq. injection Heq as -> Heq.
    f_equal. by apply IH.
Qed.

End StringFacts.

Section RecordFacts.
Variable absolute_path : string -> string.
Variable hostname : string.
Variable pid : Z.
Variable today : Z -> string.

(** C7. The lock text is the host name, a dot, the process id in
    decimal, a dot and the task uid. For a task uid without a dot, the
    last dot-separated field of the lock text [host.pid.uid] is the uid,
    whatever the host name and process id are, and also when the text
    before the last dot contains dots itself; reading the uid back from
    a lock file holding that text gives the uid. *)
Theorem lock_record_round_trip (task_uid : string) :
  Py.contains "." task_uid = false →
  _lock_file_contents hostname pid task_uid
  = hostname +:+ "." +:+ pretty pid +:+ "." +:+ task_uid
  ∧ task_uid_of_lock (_lock_file_contents hostname pid task_uid) = task_uid
  ∧ (∀ host_and_pid : string,
       task_uid_of_lock (host_and_pid +:+ "." +:+ task_uid) = task_uid)
  ∧ (∀ (lock_filename : string) (w : World),
       fs w !! lock_filename
         = Some (File (_lock_file_contents hostname pid task_uid)) →
       _task_uid_from_lock_file lock_filename w
         = (Ok task_uid, emit (EvRead lock_filename) w)).
Proof.
  intros Hu.
  assert (Hgen : ∀ p : string, task_uid_of_lock (p +:+ "." +:+ task_uid) = task_uid).
  { intros p. unfold task_uid_of_lock.
    change ("." +:+ task_uid) with (String "." task_uid).
    by rewrite last_field_after_sep. }
  assert (Henc : task_uid_of_lock (_lock_file_contents hostname pid task_uid)
                 = task_uid).
  { unfold _lock_file_contents.
    rewrite <- (append_assoc hostname "." _), <- (append_assoc _ (pretty pid) _).
    apply Hgen. }
  split; [reflexivity|]. split; [exact Henc|]. split; [exact Hgen|].
  intros lock_filename w Hlock.
  unfold _task_uid_from_lock_file, mbind, M_bind, bind, read_file_to_string.
  rewrite Hlock. unfold ret. by rewrite Henc.
Qed.

Lemma temp_dir_not_lock_file (module_dir task_uid : string) :
  _temp_download_dir absolute_path module_dir task_uid
  ≠ _lock_filename absolute_path module_dir.
Proof.
  unfold _temp_download_dir, _lock_filename. intros Heq.
  apply String.app_inj in Heq.
  change ("." +:+ task_uid +:+ ".tmp") with (String "." (task_uid +:+ ".tmp"))
    in Heq.
  injection Heq as Heq.
  destruct task_uid as [|c u]; [discriminate|].
  apply (f_equal String.length) in Heq.
  rewrite length_append in Heq. simpl in Heq. lia.
Qed.

(** C9. The temporary directory is the absolute module path followed by
    [.uid.tmp], the lock file is the absolute module path followed by
    [.lock], the descriptor file is the module path followed by
    [.descriptor.txt]; for one module directory, different uids give
    different temporary directories. *)
Theorem persisted_paths (module_dir task_uid : string) :
  _temp_download_dir absolute_path module_dir task_uid
    = absolute_path module_dir +:+ "." +:+ task_uid +:+ ".tmp"
  ∧ _lock_filename absolute_path module_dir
    = absolute_path module_dir +:+ ".lock"
  ∧ _module_descriptor_file module_dir = module_dir +:+ ".descriptor.txt"
  ∧ (∀ other_uid : string,
       task_uid ≠ other_uid →
       _temp_download_dir absolute_path module_dir task_uid
       ≠ _temp_download_dir absolute_path module_dir other_uid).
Proof.
  repeat split.
  intros other_uid Hne Heq. apply Hne.
  unfold _temp_download_dir in Heq.
  apply String.app_inj in Heq.
  change ("." +:+ ?u +:+ ".tmp") with (String "." (u +:+ ".tmp")) in Heq.
  injection Heq as Heq. by apply append_inj_r in Heq.
Qed.
End RecordFacts.

(** C10. [tfhub_cache_dir] returns the TFHUB_CACHE_DIR environment
    variable when it is non-empty, otherwise the value of the
    tfhub_cache_dir flag when it is set, otherwise the default when it is
    set, otherwise the system temporary directory joined with
    [tfhub_modules] when [use_temp] holds, and otherwise no directory. *)
Theorem tfhub_cache_dir_precedence
  (cfg : Config) (default_cache_dir : option string) (use_temp : bool) :
  let env := getenv cfg "TFHUB_CACHE_DIR" in
  let flag := flag_value cfg "tfhub_cache_dir" in
  tfhub_cache_dir cfg default_cache_dir use_temp =
    (if Py.truthy env then Some env
     else if Py.truthy_opt flag then flag
     else if Py.truthy_opt default_cache_dir then default_cache_dir
     else if use_temp
          then Some (Py.path_join (gettempdir cfg) "tfhub_modules")
          else default_cache_dir)
  ∧ (Py.truthy env = false → Py.truthy_opt flag = false →
     Py.truthy_opt default_cache_dir = false → use_temp = false →
     Py.truthy_opt (tfhub_cache_dir cfg default_cache_dir use_temp) = false).
Proof.
  intros env flag.
  assert (Heq : tfhub_cache_dir cfg default_cache_dir use_temp =
    (if Py.truthy env then Some env
     else if Py.truthy_opt flag then flag
     else if Py.truthy_opt default_cache_dir then default_cache_dir
     else if use_temp
          then Some (Py.path_join (gettempdir cfg) "tfhub_modules")
          else default_cache_dir)).
  { subst env flag.
    unfold tfhub_cache_dir, get_env_setting, Py.or_, _TFHUB_CACHE_DIR.
    destruct (getenv cfg "TFHUB_CACHE_DIR") as [|c e];
      destruct (flag_value cfg "tfhub_cache_dir") as [[|c' f]|];
      destruct default_cache_dir as [[|c'' d]|];
      destruct use_temp; reflexivity. }
  split; [exact Heq|].
  intros He Hf Hd Hu. by rewrite Heq, He, Hf, Hd, Hu.
Qed.


(** ** Progress reporter *)

Section ReporterFacts.

Import DownloadManager.

Variable bytes_to_readable_str : Z -> bool -> string.

Notation log_progress := (_log_progress bytes_to_readable_str).
Notation emissions := (emission_times bytes_to_readable_str).

Lemma log_progress_quiet (self : t) (c : Call) :
  quiet c →
  log_progress self c =
    if (call_now c - _last_progress_msg_print_time self >? 15)%Z
    then (mk (_url self) (call_now c)
             (_total_bytes_downloaded self + call_bytes c)
             (_max_prog_str self),
          [LoggingInfo ("Downloading " +:+ _url self +:+ ": " +:+
             bytes_to_readable_str
               (_total_bytes_downloaded self + call_bytes c) true)])
    else (mk (_url self) (_last_progress_msg_print_time self)
             (_total_bytes_downloaded self + call_bytes c)
             (_max_prog_str self), []).
Proof.
  unfold quiet, _log_progress, _print_download_progress_msg,
    _interactive_mode. intros ->.
  simpl. by destruct (_ >? _)%Z.
Qed.

Lemma log_progress_interactive (self : t) (c : Call) :
  interactive c →
  ∃ line : string,
    (log_progress self c).2 = [StdoutWrite line; StdoutFlush].
Proof.
  unfold interactive, _log_progress, _print_download_progress_msg,
    _interactive_mode. intros ->.
  simpl. eauto.
Qed.

Lemma log_progress_url (self : t) (c : Call) :
  _url (log_progress self c).1 = _url self.
Proof.
  unfold _log_progress, _print_download_progress_msg.
  destruct (Py.truthy (_interactive_mode (call_cfg c))); simpl; [done|].
  by destruct (_ >? _)%Z.
Qed.

Lemma log_progress_calls_url (self : t) (calls : list Call) :
  _url (log_progress_calls bytes_to_readable_str self calls).1 = _url self.
Proof.
  revert self. induction calls as [|c calls IH]; intros self; simpl; [done|].
  pose proof (log_progress_url self c) as Hc.
  destruct (log_progress self c) as [self1 out1].
  specialize (IH self1).
  destruct (log_progress_calls _ self1 calls) as [self2 out2].
  simpl in *. congruence.
Qed.

Lemma quiet_emissions (self : t) (calls : list Call) :
  Forall quiet calls →
  Forall (λ e, _last_progress_msg_print_time self + 15 < e) (emissions self calls)
  ∧ ∀ start : Z,
      (length (filter (λ e : Z, (start ≤ e ≤ start + 15)%Z) (emissions self calls))
       ≤ 1)%nat.
Proof.
  revert self. induction calls as [|c calls IH]; intros self Hq; simpl.
  { split; [constructor | intros; simpl; lia]. }
  inversion Hq as [|? ? Hc Hcalls]; subst.
  rewrite (log_progress_quiet self c Hc).
  destruct (call_now c - _last_progress_msg_print_time self >? 15)%Z eqn:Hgt.
  - apply Z.gtb_lt in Hgt.
    destruct (IH (mk (_url self) (call_now c)
                  (_total_bytes_downloaded self + call_bytes c)
                  (_max_prog_str self)) Hcalls) as [Hlater Hwin].
    simpl in *. split.
    + constructor; [lia|].
      eapply Forall_impl; [exact Hlater|]. simpl. intros; lia.
    + intros start. rewrite filter_cons. case_decide as Hin; [|apply Hwin].
      simpl. rewrite filter_none; [simpl; lia|].
      eapply Forall_impl; [exact Hlater|]. simpl. intros; lia.
  - simpl. exact (IH (mk (_url self) (_last_progress_msg_print_time self)
                        (_total_bytes_downloaded self + call_bytes c)
                        (_max_prog_str self)) Hcalls).
Qed.

Lemma interactive_emissions (self : t) (calls : list Call) :
  Forall interactive calls →
  emissions self calls = map call_now calls.
Proof.
  revert self. induction calls as [|c calls IH]; intros self Hi; simpl; [done|].
  inversion Hi as [|? ? Hc Hcalls]; subst.
  destruct (log_progress_interactive self c Hc) as [line Hout].
  destruct (log_progress self c) as [self1 out1]. simpl in Hout. subst out1.
  simpl. f_equal. by apply IH.
Qed.

Lemma summary_is_one_message (self : t) (cfg : Config) (msg : string) :
  length (filter (λ o, is_message o = true)
            (_print_download_progress_msg self cfg msg true).2) = 1%nat.
Proof.
  unfold _print_download_progress_msg.
  by destruct (Py.truthy (_interactive_mode cfg)).
Qed.


(** C6, as amended. When the stream cannot be read as a tar archive,
    [download_and_uncompress] raises the built-in [IOError] with the
    message "<url> does not appear to be a valid module."; this is the
    class [PathResolver] raises for a path that does not exist, so only
    the message tells the two apart. No summary message is emitted. *)
Theorem invalid_archive_raises_IOError (self : t) (x : Extraction) :
  outcome x = Some TarReadError →
  ∃ (self' : t) (e : Exn),
    download_and_uncompress bytes_to_readable_str self x
    = (Raise e, self',
       (log_progress_calls bytes_to_readable_str self (log_calls x)).2)
    ∧ e = IOError (_url self +:+ " does not appear to be a valid module.")
    ∧ exn_class e = ClsIOError
    ∧ (∀ (path : string) (w : World),
         fs w !! path = None →
         ∃ (e' : Exn) (w' : World),
           PathResolver_call path w = (Raise e', w')
           ∧ exn_class e' = exn_class e).
Proof.
  intros Hx. unfold download_and_uncompress. rewrite Hx.
  pose proof (log_progress_calls_url self (log_calls x)) as Hurl.
  destruct (log_progress_calls _ self (log_calls x)) as [self1 out1].
  simpl in *. rewrite Hurl.
  exists self1, (IOError (_url self +:+ " does not appear to be a valid module.")).
  repeat split.
  intros path w Hpath. unfold PathResolver_call, Exists.
  unfold mbind, M_bind, bind. rewrite Hpath.
  rewrite bool_decide_eq_false_2 by (by intros [? ?]).
  by eexists _, _.
Qed.

End ReporterFacts.

(** ** Cache population protocol *)

Ltac unfold_monad :=
  unfold mbind, M_bind, bind, ret, raise, out_of_fuel, try_except,
    try_finally, on_not_found in *.

Ltac fs_lookup :=
  repeat first
    [ rewrite lookup_insert_eq | rewrite lookup_delete_eq
    | rewrite lookup_insert_ne by done | rewrite lookup_delete_ne by done ].

Ltac trace_eq :=
  rewrite <- ?app_assoc; simpl; rewrite ?app_nil_r; reflexivity.

(** *** Which events a computation can record *)

Section Emits.

Variable P : Event -> Prop.

Lemma emits_ret {A} (a : A) : emits_only P (ret a).
Proof. intros w. exists []. by rewrite app_nil_r. Qed.

Lemma emits_raise {A} (e : Exn) : emits_only P (@raise A e).
Proof. intros w. exists []. by rewrite app_nil_r. Qed.

Lemma emits_out_of_fuel {A} : emits_only P (@out_of_fuel A).
Proof. intros w. exists []. by rewrite app_nil_r. Qed.

Lemma emits_bind {A B} (m : M A) (k : A -> M B) :
  emits_only P m → (∀ a, emits_only P (k a)) → emits_only P (m ≫= k).
Proof.
  intros Hm Hk w. unfold mbind, M_bind, bind.
  destruct (Hm w) as (evs & Htr & Hevs).
  destruct (m w) as [[a|e|] w1]; simpl in *; [|by exists evs..].
  destruct (Hk a w1) as (evs' & Htr' & Hevs').
  exists (evs ++ evs')%list. split.
  - by rewrite Htr', Htr, app_assoc.
  - by apply Forall_app.
Qed.

Lemma emits_try_except {A} (body : M A) (handler : Exn -> option (M A)) :
  emits_only P body →
  (∀ e h, handler e = Some h → emits_only P h) →
  emits_only P (try_except body handler).
Proof.
  intros Hm Hh w. unfold try_except.
  destruct (Hm w) as (evs & Htr & Hevs).
  destruct (body w) as [[a|e|] w1]; simpl in *; [by exists evs| |by exists evs].
  destruct (handler e) as [h|] eqn:He; [|by exists evs].
  destruct (Hh e h He w1) as (evs' & Htr' & Hevs').
  exists (evs ++ evs')%list. split.
  - by rewrite Htr', Htr, app_assoc.
  - by apply Forall_app.
Qed.

Lemma emits_try_finally {A} (body : M A) (fin : M unit) :
  emits_only P body → emits_only P fin →
  emits_only P (try_finally body fin).
Proof.
  intros Hm Hf w. unfold try_finally.
  destruct (Hm w) as (evs & Htr & Hevs).
  destruct (body w) as [[a|e|] w1]; simpl in *; [| |by exists evs].
  all: destruct (Hf w1) as (evs' & Htr' & Hevs');
    destruct (fin w1) as [[[]|e'|] w2]; simpl in *;
    exists (evs ++ evs')%list;
    (split; [by rewrite Htr', Htr, app_assoc | by apply Forall_app]).
Qed.

Lemma emits_on_not_found {A} (h h' : M A) (e : Exn) :
  emits_only P h → on_not_found h e = Some h' → emits_only P h'.
Proof. destruct e as [[]| | | |]; simpl; intros; simplify_eq; done. Qed.

(** A primitive that records exactly one event. *)
Lemma emits_one {A} (m : M A) (e : Event) :
  P e → (∀ w, trace (m w).2 = (trace w ++ [e])%list) → emits_only P m.
Proof. intros He Hm w. exists [e]. split; [apply Hm | by constructor]. Qed.

Lemma emits_Exists p : P (EvExists p) → emits_only P (Exists p).
Proof. intros. by eapply emits_one. Qed.

Lemma emits_ListDirectory p :
  P (EvListDirectory p) → emits_only P (ListDirectory p).
Proof.
  intros. eapply emits_one; [done|]. intros w. unfold ListDirectory.
  by destruct (fs w !! p) as [[]|].
Qed.

Lemma emits_Remove p : P (EvRemove p) → emits_only P (Remove p).
Proof.
  intros. eapply emits_one; [done|]. intros w. unfold Remove.
  by destruct (fs w !! p) as [[]|].
Qed.

Lemma emits_DeleteRecursively p :
  P (EvDeleteRecursively p) → emits_only P (DeleteRecursively p).
Proof.
  intros. eapply emits_one; [done|]. intros w. unfold DeleteRecursively.
  by destruct (fs w !! p).
Qed.

Lemma emits_read_file_to_string p :
  P (EvRead p) → emits_only P (read_file_to_string p).
Proof.
  intros. eapply emits_one; [done|]. intros w. unfold read_file_to_string.
  by destruct (fs w !! p) as [[]|].
Qed.

Lemma emits_atomic_write p c o :
  P (EvWrite p c o) → emits_only P (atomic_write_string_to_file p c o).
Proof.
  intros. eapply emits_one; [done|]. intros w.
  unfold atomic_write_string_to_file.
  destruct (write_faults w) as [|[]]; try done.
  all: by destruct (negb o && _).
Qed.

Lemma emits_time_time : emits_only P time_time.
Proof. intros w. exists []. by rewrite app_nil_r. Qed.

Lemma emits_time_sleep secs : P (EvSleep secs) → emits_only P (time_sleep secs).
Proof. intros. by eapply emits_one. Qed.

Lemma emits_logging_info msg :
  P (EvLogInfo msg) → emits_only P (logging_info msg).
Proof. intros. by eapply emits_one. Qed.

Lemma emits_logging_warning msg :
  P (EvLogWarning msg) → emits_only P (logging_warning msg).
Proof. intros. by eapply emits_one. Qed.

Lemma emits_dir_size dir :
  P (EvListDirectory dir) → emits_only P (_dir_size dir).
Proof.
  intros. eapply emits_one; [done|]. intros w. unfold _dir_size.
  by destruct (fs w !! dir) as [[]|].
Qed.

End Emits.

Section ProtocolFacts.

Variable absolute_path : string -> string.
Variable hostname : string.
Variable pid : Z.
Variable today : Z -> string.

Notation lock_filename := (_lock_filename absolute_path).
Notation lock_file_contents := (_lock_file_contents hostname pid).
Notation temp_download_dir := (_temp_download_dir absolute_path).
Notation download := (atomic_download absolute_path hostname pid today).

Lemma check_module_exists_populated (module_dir : string) (w : World)
  (e : string * node) (es : list (string * node)) :
  fs w !! module_dir = Some (Dir (e :: es)) →
  check_module_exists module_dir w
  = (Ok true, emit (EvListDirectory module_dir) (emit (EvExists module_dir) w)).
Proof.
  intros Hdir. unfold check_module_exists, Exists, ListDirectory.
  unfold_monad. simpl. rewrite !Hdir. simpl. by rewrite Hdir.
Qed.

(** C2. When [module_dir] holds a non-empty directory, [atomic_download]
    returns [module_dir] after one [Exists] and one [ListDirectory]:
    the namespace is unchanged, no lock file is written, no temporary
    directory is made and the callback is not run, whatever the fuel,
    the callback and the timeout. *)
Theorem cached_module_fast_path
  (fuel : nat) (task_uid handle : string) (download_fn : DownloadFn)
  (module_dir : string) (lock_file_timeout_sec : Z) (w : World)
  (e : string * node) (es : list (string * node)) :
  fs w !! module_dir = Some (Dir (e :: es)) →
  download fuel task_uid handle download_fn module_dir lock_file_timeout_sec w
  = (Ok module_dir,
     emit (EvListDirectory module_dir) (emit (EvExists module_dir) w)).
Proof.
  intros Hdir. unfold atomic_download.
  unfold mbind at 1. unfold M_bind, bind.
  by rewrite (check_module_exists_populated _ _ _ _ Hdir).
Qed.

Lemma attempt_acquired (module_dir lock_file lock_contents : string)
  (w w' : World) :
  acquisition_attempt module_dir lock_file lock_contents w
  = (Ok (Some LockAcquired), w') →
  fs w' !! module_dir = None.
Proof.
  unfold acquisition_attempt, atomic_write_string_to_file,
    check_module_exists, Exists, ListDirectory, DeleteRecursively,
    acquisition_handler.
  unfold_monad. intros H. simpl in H.
  repeat (case_match; simplify_eq/=); try done.
  all: try apply lookup_delete_eq.
  all: apply eq_None_not_Some;
    repeat match goal with
           | H : bool_decide _ = false |- _ => apply bool_decide_eq_false_1 in H
           end; assumption.
Qed.

Lemma acquired_module_absent (fuel : nat)
  (handle module_dir lock_file lock_contents : string) (timeout : Z)
  (w w' : World) :
  acquisition_loop absolute_path fuel handle module_dir lock_file
    lock_contents timeout w = (Ok LockAcquired, w') →
  fs w' !! module_dir = None.
Proof.
  revert w. induction fuel as [|fuel IH]; intros w; simpl; [done|].
  unfold mbind at 1. unfold M_bind, bind.
  destruct (acquisition_attempt module_dir lock_file lock_contents w)
    as [[[a|]|e|] w1] eqn:Hatt; try done.
  - unfold ret. intros [= -> ->]. by eapply attempt_acquired.
  - unfold mbind at 1. unfold M_bind, bind.
    destruct (_wait_for_lock_to_disappear _ _ _ _ _ w1) as [[[]|e|] w2];
      try done.
    apply IH.
Qed.

(** Waiting for the lock and acquiring it never renames anything. *)
Notation no_rename := (λ e : Event, is_rename e = false).

Ltac emits_step :=
  lazymatch goal with
  | |- emits_only _ (if ?b then _ else _) => destruct b
  | |- emits_only _ (match ?x with _ => _ end) => destruct x
  | |- emits_only _ _ =>
      first
        [ apply emits_ret | apply emits_raise | apply emits_out_of_fuel
        | apply emits_time_time
        | apply emits_Exists | apply emits_ListDirectory | apply emits_Remove
        | apply emits_DeleteRecursively | apply emits_read_file_to_string
        | apply emits_atomic_write | apply emits_time_sleep
        | apply emits_logging_info | apply emits_logging_warning
        | apply emits_dir_size
        | apply emits_bind | apply emits_try_finally
        | (apply emits_try_except; [|intros ? ? ?])
        | (eapply emits_on_not_found; [|eassumption]) ]
  | |- forall _, _ => intro
  | |- _ = _ => reflexivity
  end.

Lemma check_module_exists_no_rename (module_dir : string) :
  emits_only no_rename (check_module_exists module_dir).
Proof. unfold check_module_exists. repeat emits_step. Qed.

Lemma wait_iteration_no_rename (handle lock_file : string) (timeout : Z)
  (v : WaitVars) :
  emits_only no_rename
    (wait_iteration absolute_path handle lock_file timeout v).
Proof.
  unfold wait_iteration, _locked_tmp_dir_size, _task_uid_from_lock_file,
    _module_dir.
  repeat emits_step.
Qed.

Lemma wait_loop_no_rename (fuel : nat) (handle lock_file : string)
  (timeout : Z) (v : WaitVars) :
  emits_only no_rename
    (wait_loop absolute_path fuel handle lock_file timeout v).
Proof.
  revert v. induction fuel as [|fuel IH]; intros v; simpl.
  { apply emits_out_of_fuel. }
  apply emits_bind; [by apply emits_Exists|]. intros [|]; [|apply emits_ret].
  apply emits_bind; [apply wait_iteration_no_rename|].
  intros [|v']; [apply emits_ret | apply IH].
Qed.

Lemma acquisition_attempt_no_rename
  (module_dir lock_file lock_contents : string) :
  emits_only no_rename
    (acquisition_attempt module_dir lock_file lock_contents).
Proof.
  unfold acquisition_attempt. apply emits_try_except.
  - unfold check_module_exists. repeat emits_step.
  - intros e h. unfold acquisition_handler.
    destruct e as [code| | | |]; try done.
    destruct (permanent code); intros [= <-]; repeat emits_step.
Qed.

Lemma acquisition_loop_no_rename (fuel : nat)
  (handle module_dir lock_file lock_contents : string) (timeout : Z) :
  emits_only no_rename
    (acquisition_loop absolute_path fuel handle module_dir lock_file
       lock_contents timeout).
Proof.
  induction fuel as [|fuel IH]; simpl.
  { apply emits_out_of_fuel. }
  apply emits_bind; [apply acquisition_attempt_no_rename|].
  intros [a|]; [apply emits_ret|].
  apply emits_bind; [|intros _; apply IH].
  unfold _wait_for_lock_to_disappear.
  apply emits_bind; [apply emits_time_time|].
  intros now. apply wait_loop_no_rename.
Qed.

Lemma lock_file_contents_nonempty (task_uid : string) :
  lock_file_contents task_uid ≠ EmptyString.
Proof. unfold _lock_file_contents. by destruct hostname. Qed.

Lemma cleanup_run (tmp_dir lock_file lock_contents : string) (w : World) :
  tmp_dir ≠ lock_file →
  lock_contents ≠ EmptyString →
  (∀ entries, fs w !! lock_file ≠ Some (Dir entries)) →
  cleanup tmp_dir lock_file lock_contents w
  = (Ok tt,
     mkWorld
       (if lock_owned (fs w) lock_file lock_contents
        then delete lock_file (delete tmp_dir (fs w))
        else delete tmp_dir (fs w))
       (clock w) (write_faults w)
       (trace w ++ [EvDeleteRecursively tmp_dir; EvRead lock_file] ++
        (if lock_owned (fs w) lock_file lock_contents
         then [EvRemove lock_file] else []))%list).
Proof.
  intros Hne Hcontents Hlock.
  unfold cleanup, DeleteRecursively, read_file_to_string, Remove, lock_owned.
  unfold_monad. unfold set_fs, emit. simpl.
  destruct (fs w !! tmp_dir) as [n|] eqn:Htmp; simpl.
  - rewrite lookup_delete_ne by done.
    destruct (fs w !! lock_file) as [[c|entries]|] eqn:Hl; simpl.
    + destruct (String.eqb c lock_contents); simpl.
      * rewrite lookup_delete_ne, Hl by done. simpl. trace_eq.
      * trace_eq.
    + by destruct (Hlock entries).
    + destruct lock_contents; [done|]. trace_eq.
  - rewrite (delete_id (fs w) tmp_dir) by done.
    destruct (fs w !! lock_file) as [[c|entries]|] eqn:Hl; simpl.
    + destruct (String.eqb c lock_contents); simpl.
      * rewrite Hl. simpl. trace_eq.
      * trace_eq.
    + by destruct (Hlock entries).
    + destruct lock_contents; [done|]. trace_eq.
Qed.

(** C1. When the download callback raises after the lock has been
    acquired, [atomic_download] raises that same error; the temporary
    directory is gone afterwards; the lock file is removed exactly when
    it still holds the text this task wrote, and a lock with other text
    or no lock at all is left as it is without any further error; the
    module directory, absent when the download started, stays absent
    unless the callback itself created it. *)
Theorem failed_download_cleanup
  (fuel : nat) (task_uid handle : string) (download_fn : DownloadFn)
  (module_dir : string) (lock_file_timeout_sec : Z)
  (w w0 w1 : World) (e : Exn) (f : gmap string node) :
  let lock_file := lock_filename module_dir in
  let lock_contents := lock_file_contents task_uid in
  let tmp_dir := temp_download_dir module_dir task_uid in
  check_module_exists module_dir w = (Ok false, w0) →
  acquisition_loop absolute_path fuel handle module_dir lock_file
    lock_contents lock_file_timeout_sec w0 = (Ok LockAcquired, w1) →
  fs w1 !! tmp_dir = None →
  download_fn handle tmp_dir (<[tmp_dir := Dir []]> (fs w1)) = (Some e, f) →
  (∀ entries, f !! lock_file ≠ Some (Dir entries)) →
  ∃ wf : World,
    download fuel task_uid handle download_fn module_dir
      lock_file_timeout_sec w = (Raise e, wf)
    ∧ fs wf !! tmp_dir = None
    ∧ fs wf = (if lock_owned f lock_file lock_contents
               then delete lock_file (delete tmp_dir f)
               else delete tmp_dir f)
    ∧ fs wf !! lock_file = (if lock_owned f lock_file lock_contents
                            then None else f !! lock_file)
    ∧ trace wf =
        (trace w1 ++
         [EvLogInfo ("Downloading TF-Hub Module '" +:+ handle +:+ "'.");
          EvMakeDirs tmp_dir; EvDownload handle tmp_dir;
          EvDeleteRecursively tmp_dir; EvRead lock_file] ++
         (if lock_owned f lock_file lock_contents
          then [EvRemove lock_file] else []))%list
    ∧ fs w1 !! module_dir = None
    ∧ (f !! module_dir = None → fs wf !! module_dir = None).
Proof.
  intros lock_file lock_contents tmp_dir Hcheck Hacq Htmp Hdl Hlock.
  pose proof (temp_dir_not_lock_file absolute_path module_dir task_uid) as Hne.
  pose proof (lock_file_contents_nonempty task_uid) as Hnonempty.
  pose proof (acquired_module_absent _ _ _ _ _ _ _ _ Hacq) as Habsent.
  fold lock_file tmp_dir in Hne. fold lock_contents in Hnonempty.
  unfold atomic_download. fold lock_file lock_contents tmp_dir.
  unfold mbind at 1. unfold M_bind at 1. unfold bind at 1. rewrite Hcheck.
  unfold try_finally.
  unfold mbind at 1. unfold M_bind at 1. unfold bind at 1. rewrite Hacq.
  unfold logging_info, MakeDirs, call_download_fn.
  unfold_monad. simpl. rewrite Htmp. simpl. rewrite Hdl. simpl.
  rewrite cleanup_run by done. simpl.
  eexists. split; [reflexivity|]. simpl.
  repeat split.
  - destruct (lock_owned f lock_file lock_contents).
    + rewrite lookup_delete_ne by done. apply lookup_delete_eq.
    + apply lookup_delete_eq.
  - destruct (lock_owned f lock_file lock_contents); by fs_lookup.
  - destruct (lock_owned f lock_file lock_contents); trace_eq.
  - exact Habsent.
  - intros Hm. destruct (lock_owned f lock_file lock_contents);
      rewrite ?lookup_delete; repeat case_decide; done.
Qed.

Lemma descriptor_not_module_dir (module_dir : string) :
  _module_descriptor_file module_dir ≠ module_dir.
Proof.
  unfold _module_descriptor_file. intros Heq.
  apply (f_equal String.length) in Heq. rewrite length_append in Heq.
  simpl in Heq. lia.
Qed.

Lemma no_rename_filter (evs : list Event) :
  Forall no_rename evs → filter (λ e, is_rename e = true) evs = [].
Proof.
  intros Hevs. apply filter_none.
  eapply Forall_impl; [exact Hevs|]. simpl. intros e He. by rewrite He.
Qed.

(** C4. When the download callback returns normally, [atomic_download]
    returns [module_dir] and the whole call performs exactly one
    [Rename], of the temporary directory onto [module_dir]. If
    [module_dir] is still absent the downloaded directory becomes
    visible there; if another task created it meanwhile, the failed
    rename is swallowed with a warning, that directory is left as it is
    and the local temporary directory is deleted in the cleanup. *)
Theorem successful_download_single_rename
  (fuel : nat) (task_uid handle : string) (download_fn : DownloadFn)
  (module_dir : string) (lock_file_timeout_sec : Z)
  (w w0 w1 : World) (f : gmap string node) :
  let lock_file := lock_filename module_dir in
  let lock_contents := lock_file_contents task_uid in
  let tmp_dir := temp_download_dir module_dir task_uid in
  let descriptor := _module_descriptor_file module_dir in
  check_module_exists module_dir w = (Ok false, w0) →
  acquisition_loop absolute_path fuel handle module_dir lock_file
    lock_contents lock_file_timeout_sec w0 = (Ok LockAcquired, w1) →
  fs w1 !! tmp_dir = None →
  download_fn handle tmp_dir (<[tmp_dir := Dir []]> (fs w1)) = (None, f) →
  is_Some (f !! tmp_dir) →
  (∀ entries, f !! lock_file ≠ Some (Dir entries)) →
  (∀ code rest, write_faults w1 ≠ Some code :: rest) →
  module_dir ≠ tmp_dir → module_dir ≠ lock_file →
  descriptor ≠ tmp_dir → descriptor ≠ lock_file →
  ∃ (wf : World) (evs : list Event),
    download fuel task_uid handle download_fn module_dir
      lock_file_timeout_sec w = (Ok module_dir, wf)
    ∧ trace wf = (trace w ++ evs)%list
    ∧ filter (λ e, is_rename e = true) evs = [EvRename tmp_dir module_dir]
    ∧ fs wf !! tmp_dir = None
    ∧ fs wf !! module_dir
      = match f !! module_dir with
        | Some theirs => Some theirs
        | None => f !! tmp_dir
        end
    ∧ (is_Some (f !! module_dir) →
       EvLogWarning ("Module already exists in " +:+ module_dir) ∈ evs).
Proof.
  intros lock_file lock_contents tmp_dir descriptor
    Hcheck Hacq Htmp Hdl [artifact Hart] Hlock Hfault Hmt Hml Hdt Hdl'.
  pose proof (temp_dir_not_lock_file absolute_path module_dir task_uid) as Hne.
  pose proof (lock_file_contents_nonempty task_uid) as Hnonempty.
  pose proof (descriptor_not_module_dir module_dir) as Hdm.
  fold lock_file tmp_dir in Hne. fold lock_contents in Hnonempty.
  fold descriptor in Hdm.
  destruct (check_module_exists_no_rename module_dir w) as (evs0 & Htr0 & Hevs0).
  rewrite Hcheck in Htr0. simpl in Htr0.
  destruct (acquisition_loop_no_rename fuel handle module_dir lock_file
              lock_contents lock_file_timeout_sec w0) as (evs1 & Htr1 & Hevs1).
  rewrite Hacq in Htr1. simpl in Htr1.
  unfold atomic_download. fold lock_file lock_contents tmp_dir.
  unfold mbind at 1. unfold M_bind at 1. unfold bind at 1. rewrite Hcheck.
  unfold try_finally.
  unfold mbind at 1. unfold M_bind at 1. unfold bind at 1. rewrite Hacq.
  unfold logging_info, MakeDirs, call_download_fn,
    _write_module_descriptor_file, atomic_write_string_to_file, time_time,
    Rename, logging_warning.
  fold descriptor.
  unfold_monad. simpl. rewrite Htmp. simpl. rewrite Hdl. simpl.
  assert (Hnofault :
    match write_faults w1 with
    | Some code :: _ => False | _ => True end).
  { destruct (write_faults w1) as [|[code|] rest]; try done.
    by destruct (Hfault code rest). }
  destruct (write_faults w1) as [|[code|] rest] eqn:Hwf; [|done|]; simpl.
  all: fs_lookup.
  all: destruct (f !! module_dir) as [theirs|] eqn:Hmod; simpl.
  all: fs_lookup; rewrite ?Hart; simpl.
  all: rewrite cleanup_run; simpl;
    [ | done | done | intros entries; fs_lookup; apply Hlock ].
  all: eexists; eexists; split; [reflexivity|]; simpl.
  all: rewrite Htr1, Htr0.
  all: split; [rewrite <- !app_assoc; reflexivity|].
  all: rewrite !filter_app, !no_rename_filter by done; simpl.
  all: split; [destruct (lock_owned _ _ _); reflexivity|].
  all: split; [destruct (lock_owned _ _ _); by fs_lookup|].
  all: split; [destruct (lock_owned _ _ _); by fs_lookup|].
  all: intros [? ?]; simplify_eq.
  all: do 2 (apply elem_of_app; right).
  all: repeat (apply elem_of_cons; first [by left | right]).
Qed.

Lemma check_module_exists_frame (module_dir : string) (w w' : World)
  (r : Res bool) :
  check_module_exists module_dir w = (r, w') →
  fs w' = fs w ∧ clock w' = clock w ∧ write_faults w' = write_faults w.
Proof.
  unfold check_module_exists, Exists, ListDirectory. unfold_monad. simpl.
  destruct (bool_decide _); simpl; [|by intros [= <- <-]].
  destruct (fs w !! module_dir) as [[c|entries]|]; by intros [= <- <-].
Qed.

(** C5. When the write of the lock file fails with not-found,
    permission-denied, unauthenticated, resource-exhausted, internal,
    invalid-argument or unimplemented, the acquisition loop raises that
    error at once, and [atomic_download] raises it after the cleanup
    alone: one write attempt, no poll of the lock and no sleep. When it
    fails with any other class the error is swallowed: the loop waits
    for the lock to disappear and runs again. *)
Theorem lock_creation_failure
  (fuel : nat) (task_uid handle : string) (download_fn : DownloadFn)
  (module_dir : string) (lock_file_timeout_sec : Z)
  (code : ErrCode) (rest : list (option ErrCode)) :
  let lock_file := lock_filename module_dir in
  let lock_contents := lock_file_contents task_uid in
  let tmp_dir := temp_download_dir module_dir task_uid in
  let permanent_classes :=
    [NotFound; PermissionDenied; Unauthenticated; ResourceExhausted;
     Internal; InvalidArgument; Unimplemented] in
  let failed_write (w : World) :=
    pop_fault (emit (EvWrite lock_file lock_contents false) w) in
  (∀ w : World,
     write_faults w = Some code :: rest →
     code ∈ permanent_classes →
     acquisition_loop absolute_path (S fuel) handle module_dir lock_file
       lock_contents lock_file_timeout_sec w
     = (Raise (OpError code), failed_write w))
  ∧ (∀ w w0 : World,
       check_module_exists module_dir w = (Ok false, w0) →
       write_faults w = Some code :: rest →
       code ∈ permanent_classes →
       (∀ entries, fs w !! lock_file ≠ Some (Dir entries)) →
       ∃ wf : World,
         download (S fuel) task_uid handle download_fn module_dir
           lock_file_timeout_sec w = (Raise (OpError code), wf)
         ∧ trace wf =
             (trace w0 ++
              [EvWrite lock_file lock_contents false;
               EvDeleteRecursively tmp_dir; EvRead lock_file] ++
              (if lock_owned (fs w) lock_file lock_contents
               then [EvRemove lock_file] else []))%list
         ∧ clock wf = clock w)
  ∧ (∀ w : World,
       write_faults w = Some code :: rest →
       code ∉ permanent_classes →
       acquisition_loop absolute_path (S fuel) handle module_dir lock_file
         lock_contents lock_file_timeout_sec w
       = (_wait_for_lock_to_disappear absolute_path fuel handle lock_file
            lock_file_timeout_sec ≫= λ _,
          acquisition_loop absolute_path fuel handle module_dir lock_file
            lock_contents lock_file_timeout_sec) (failed_write w)).
Proof.
  intros lock_file lock_contents tmp_dir permanent_classes failed_write.
  assert (Hclass : code ∈ permanent_classes ↔ permanent code = true).
  { unfold permanent_classes. rewrite !elem_of_cons, elem_of_nil.
    destruct code; simpl; intuition congruence. }
  assert (Hperm : ∀ w : World,
     write_faults w = Some code :: rest →
     permanent code = true →
     acquisition_loop absolute_path (S fuel) handle module_dir lock_file
       lock_contents lock_file_timeout_sec w
     = (Raise (OpError code), failed_write w)).
  { intros w Hwf Hp. simpl.
    unfold acquisition_attempt, atomic_write_string_to_file,
      acquisition_handler.
    unfold_monad. rewrite Hwf. simpl. by rewrite Hp. }
  split; [|split].
  - intros w Hwf Hin. apply Hperm; [done | by apply Hclass].
  - intros w w0 Hcheck Hwf Hin Hlock.
    apply Hclass in Hin.
    destruct (check_module_exists_frame _ _ _ _ Hcheck) as (Hfs & Hclock & Hfaults).
    pose proof (temp_dir_not_lock_file absolute_path module_dir task_uid) as Hne.
    pose proof (lock_file_contents_nonempty task_uid) as Hnonempty.
    unfold atomic_download. fold lock_file lock_contents tmp_dir.
    unfold mbind at 1. unfold M_bind at 1. unfold bind at 1. rewrite Hcheck.
    unfold try_finally.
    unfold mbind at 1. unfold M_bind at 1. unfold bind at 1.
    rewrite Hperm by congruence.
    rewrite cleanup_run; [|done|done|by simpl; rewrite Hfs].
    eexists. split; [reflexivity|]. simpl. rewrite Hfs.
    split; [|done]. destruct (lock_owned _ _ _); trace_eq.
  - intros w Hwf Hnot.
    assert (Hp : permanent code = false).
    { destruct (permanent code); [|done]. destruct Hnot. by apply Hclass. }
    simpl.
    unfold acquisition_attempt, atomic_write_string_to_file,
      acquisition_handler.
    unfold mbind at 1. unfold M_bind at 1. unfold bind at 1.
    unfold try_except.
    unfold mbind at 1. unfold M_bind at 1. unfold bind at 1.
    rewrite Hwf. simpl. by rewrite Hp.
Qed.

(** *** The staleness monitor on a lock nobody touches *)

(** The temporary directory [_locked_tmp_dir_size] looks at for a lock
    file of [module_dir] whose text is [lock]. *)
Notation holder_tmp_dir module_dir lock :=
  (temp_download_dir (absolute_path module_dir) (task_uid_of_lock lock)).

Lemma module_dir_of_lock_filename (module_dir : string) (w : World) :
  _module_dir (lock_filename module_dir) w = (Ok (absolute_path module_dir), w).
Proof.
  unfold _module_dir, _lock_filename.
  rewrite endswith_append. simpl negb. cbv iota.
  by rewrite drop_last_append.
Qed.

Lemma locked_tmp_dir_size_run (module_dir : string) (w : World) (c : string) :
  fs w !! lock_filename module_dir = Some (File c) →
  _locked_tmp_dir_size absolute_path (lock_filename module_dir) w
  = (Ok (observed_size (fs w) (holder_tmp_dir module_dir c)),
     emit (EvListDirectory (holder_tmp_dir module_dir c))
       (emit (EvRead (lock_filename module_dir)) w)).
Proof.
  intros Hlock.
  unfold _locked_tmp_dir_size, _task_uid_from_lock_file, read_file_to_string.
  unfold mbind at 1. unfold M_bind at 1. unfold bind at 1.
  unfold mbind at 1. unfold M_bind at 1. unfold bind at 1.
  rewrite Hlock. unfold ret at 1. unfold try_except.
  unfold mbind at 1. unfold M_bind at 1. unfold bind at 1.
  rewrite module_dir_of_lock_filename.
  unfold _dir_size, observed_size, on_not_found, ret. simpl.
  by destruct (fs w !! holder_tmp_dir module_dir c) as [[?|?]|].
Qed.

Lemma bind_ok {A B} (m : M A) (k : A → M B) (w w' : World) (a : A) :
  m w = (Ok a, w') → (m ≫= k) w = k a w'.
Proof. intros Hm. unfold mbind, M_bind, bind. by rewrite Hm. Qed.

Lemma bind_unfold {A B} (m : M A) (k : A → M B) (w : World) :
  (m ≫= k) w
  = match m w with
    | (Ok a, w') => k a w'
    | (Raise e, w') => (Raise e, w')
    | (OutOfFuel, w') => (OutOfFuel, w')
    end.
Proof. reflexivity. Qed.

Lemma read_file_run (path : string) (w : World) (c : string) :
  fs w !! path = Some (File c) →
  read_file_to_string path w = (Ok c, emit (EvRead path) w).
Proof. intros Hp. unfold read_file_to_string. by rewrite Hp. Qed.

Lemma wait_iteration_idle (handle module_dir : string) (timeout : Z)
  (v : WaitVars) (w : World) (c : string) :
  fs w !! lock_filename module_dir = Some (File c) →
  (clock w - locked_tmp_dir_size_check_time v ≤ timeout)%Z →
  wait_iteration absolute_path handle (lock_filename module_dir) timeout v w
  = (Ok (Next v),
     advance 5 (emit (EvSleep 5) (emit (EvRead (lock_filename module_dir)) w))).
Proof.
  intros Hlock Hidle. unfold wait_iteration, try_finally, try_except.
  erewrite bind_ok by (by apply read_file_run).
  erewrite bind_ok by reflexivity. simpl clock.
  destruct (_ >? _)%Z eqn:Hgt; [apply Z.gtb_lt in Hgt; simpl in Hgt; lia|].
  reflexivity.
Qed.

Lemma wait_iteration_check (handle module_dir : string) (timeout : Z)
  (v : WaitVars) (w : World) (c : string) :
  let lock_file := lock_filename module_dir in
  let size := observed_size (fs w) (holder_tmp_dir module_dir c) in
  let checked :=
    emit (EvRead lock_file)
      (emit (EvListDirectory (holder_tmp_dir module_dir c))
         (emit (EvRead lock_file) (emit (EvRead lock_file) w))) in
  fs w !! lock_file = Some (File c) →
  (clock w - locked_tmp_dir_size_check_time v > timeout)%Z →
  wait_iteration absolute_path handle lock_file timeout v w
  = if (size =? locked_tmp_dir_size v)%Z &&
       bool_decide (Some c = lock_file_content v)
    then (Ok Break,
          advance 5
            (emit (EvSleep 5)
               (set_fs (delete lock_file (fs w))
                  (emit (EvRemove lock_file)
                     (emit (EvLogWarning ("Deleting lock file " +:+ lock_file
                                          +:+ " due to inactivity."))
                        checked)))))
    else (Ok (Next (mkWaitVars size (clock w) (Some c))),
          advance 5 (emit (EvSleep 5) checked)).
Proof.
  intros lock_file size checked Hlock Hlate.
  unfold wait_iteration, try_finally, try_except. fold lock_file.
  erewrite bind_ok by (by apply read_file_run).
  erewrite bind_ok by reflexivity. simpl clock.
  destruct (_ >? _)%Z eqn:Hgt;
    [|rewrite Z.gtb_ltb in Hgt; apply Z.ltb_ge in Hgt; simpl in Hgt; lia].
  erewrite bind_ok by (by apply locked_tmp_dir_size_run).
  erewrite bind_ok by (by apply read_file_run).
  simpl fs. fold size.
  destruct (_ && _).
  - unfold logging_warning, Remove. unfold_monad. simpl. by rewrite Hlock.
  - reflexivity.
Qed.

Lemma exists_run (path : string) (w : World) (n : node) :
  fs w !! path = Some n → Exists path w = (Ok true, emit (EvExists path) w).
Proof.
  intros Hp. unfold Exists. rewrite Hp.
  by rewrite bool_decide_eq_true_2.
Qed.

(** While less than the timeout has passed since the last check, the
    loop only polls and sleeps. *)
Lemma wait_loop_idle (k n : nat) (handle module_dir : string) (timeout : Z)
  (v : WaitVars) (w : World) (c : string) :
  fs w !! lock_filename module_dir = Some (File c) →
  ((0 < k)%nat →
   clock w + 5 * Z.of_nat k - locked_tmp_dir_size_check_time v
   ≤ timeout + 5)%Z →
  ∃ w' : World,
    wait_loop absolute_path (k + n) handle (lock_filename module_dir)
      timeout v w
    = wait_loop absolute_path n handle (lock_filename module_dir)
        timeout v w'
    ∧ fs w' = fs w ∧ clock w' = (clock w + 5 * Z.of_nat k)%Z.
Proof.
  revert w. induction k as [|k IH]; intros w Hlock Hidle.
  { exists w. repeat split. simpl. lia. }
  simpl wait_loop.
  erewrite bind_ok by (by eapply exists_run). cbv iota.
  erewrite bind_ok by (eapply wait_iteration_idle; [exact Hlock | simpl; lia]).
  destruct (IH (advance 5 (emit (EvSleep 5)
                 (emit (EvRead (lock_filename module_dir))
                    (emit (EvExists (lock_filename module_dir)) w)))))
    as (w' & Heq & Hfs & Hclock); [exact Hlock | simpl; lia |].
  exists w'. split; [exact Heq|]. split; [exact Hfs|].
  rewrite Hclock. simpl. lia.
Qed.

(** C3. In the wait loop, once more than the timeout has passed since
    the last recorded observation and the holder's temporary directory
    size and the lock text equal what was recorded, the lock file is
    removed and the loop is left. Started on a lock that nobody touches,
    [_wait_for_lock_to_disappear] therefore returns, with the lock file
    removed by the waiting task; its first check only records what it
    sees, so more than twice the timeout has passed by then. *)
Theorem stale_lock_is_stolen (handle module_dir : string) (timeout : Z) :
  let lock_file := lock_filename module_dir in
  (∀ (fuel : nat) (v : WaitVars) (w : World) (c : string),
     fs w !! lock_file = Some (File c) →
     (clock w - locked_tmp_dir_size_check_time v > timeout)%Z →
     lock_file_content v = Some c →
     locked_tmp_dir_size v
       = observed_size (fs w) (holder_tmp_dir module_dir c) →
     ∃ w' : World,
       wait_loop absolute_path (S fuel) handle lock_file timeout v w
         = (Ok tt, w')
       ∧ fs w' = delete lock_file (fs w)
       ∧ EvRemove lock_file ∈ trace w'
       ∧ clock w' = (clock w + 5)%Z)
  ∧ (∀ (w : World) (c : string),
       fs w !! lock_file = Some (File c) →
       ∃ (fuel : nat) (w' : World),
         _wait_for_lock_to_disappear absolute_path fuel handle lock_file
           timeout w = (Ok tt, w')
         ∧ fs w' = delete lock_file (fs w)
         ∧ EvRemove lock_file ∈ trace w'
         ∧ (clock w' - clock w > 2 * timeout)%Z).
Proof.
  clear hostname pid today. intros lock_file.
  assert (Hsteal : ∀ (fuel : nat) (v : WaitVars) (w : World) (c : string),
     fs w !! lock_file = Some (File c) →
     (clock w - locked_tmp_dir_size_check_time v > timeout)%Z →
     lock_file_content v = Some c →
     locked_tmp_dir_size v
       = observed_size (fs w) (holder_tmp_dir module_dir c) →
     ∃ w' : World,
       wait_loop absolute_path (S fuel) handle lock_file timeout v w
         = (Ok tt, w')
       ∧ fs w' = delete lock_file (fs w)
       ∧ EvRemove lock_file ∈ trace w'
       ∧ clock w' = (clock w + 5)%Z).
  { intros fuel v w c Hlock Hlate Hcontent Hsize. simpl wait_loop.
    erewrite bind_ok by (by eapply exists_run). cbv iota.
    rewrite bind_unfold.
    rewrite (wait_iteration_check handle module_dir timeout v _ c)
      by (simpl; done).
    simpl fs. rewrite <- Hsize, Hcontent, Z.eqb_refl.
    rewrite bool_decide_eq_true_2 by done. simpl andb. cbv iota.
    eexists. split; [reflexivity|]. split; [reflexivity|].
    split; [|reflexivity].
    simpl. rewrite !elem_of_app, !elem_of_cons. tauto. }
  split; [exact Hsteal|].
  intros w c Hlock. unfold lock_file in *. clear lock_file.
  set (k1 := Z.to_nat (timeout / 5 + 1)).
  set (k2 := Z.to_nat (timeout / 5)).
  exists (k1 + S (k2 + 1))%nat.
  unfold _wait_for_lock_to_disappear.
  erewrite bind_ok by reflexivity.
  (* polling until the timeout has passed once *)
  destruct (wait_loop_idle k1 (S (k2 + 1)) handle module_dir timeout
              (mkWaitVars 0 (clock w) None) w c Hlock)
    as (w1 & -> & Hfs1 & Hclock1).
  { simpl. subst k1. intros Hpos. Z.div_mod_to_equations. lia. }
  (* the first check records what it sees *)
  simpl wait_loop.
  erewrite bind_ok by (eapply exists_run; by rewrite Hfs1). cbv iota.
  rewrite bind_unfold.
  rewrite (wait_iteration_check handle module_dir timeout _ _ c).
  2:{ simpl. by rewrite Hfs1. }
  2:{ simpl. rewrite Hclock1. subst k1. Z.div_mod_to_equations. lia. }
  simpl fs. simpl lock_file_content. simpl locked_tmp_dir_size.
  rewrite bool_decide_eq_false_2 by done. rewrite andb_false_r.
  simpl clock. set (w2 := advance 5 _).
  (* polling until the timeout has passed again *)
  destruct (wait_loop_idle k2 1 handle module_dir timeout
              (mkWaitVars (observed_size (fs w1) (holder_tmp_dir module_dir c))
                          (clock w1) (Some c)) w2 c)
    as (w3 & -> & Hfs3 & Hclock3).
  { subst w2. simpl. by rewrite Hfs1. }
  { subst w2. simpl. subst k2. intros Hpos. Z.div_mod_to_equations. lia. }
  (* the second check sees the same size and content *)
  destruct (Hsteal 0%nat
              (mkWaitVars (observed_size (fs w1) (holder_tmp_dir module_dir c))
                          (clock w1) (Some c)) w3 c)
    as (w4 & -> & Hfs4 & Htr4 & Hclock4).
  - rewrite Hfs3. subst w2. simpl. by rewrite Hfs1.
  - simpl. rewrite Hclock3. subst w2. simpl. subst k2.
    Z.div_mod_to_equations. lia.
  - reflexivity.
  - simpl. rewrite Hfs3. subst w2. simpl. reflexivity.
  - exists w4. split; [reflexivity|]. split; [|split; [exact Htr4|]].
    + rewrite Hfs4, Hfs3. subst w2. simpl. by rewrite Hfs1.
    + rewrite Hclock4, Hclock3. subst w2. simpl. rewrite Hclock1.
      subst k1 k2. Z.div_mod_to_equations. lia.
Qed.

End ProtocolFacts.

(** * Further properties *)

(** ** Computations that only look *)

Section ReadOnly.

Lemma read_only_ret {A} (a : A) : read_only (ret a).
Proof. by intros w. Qed.

Lemma read_only_raise {A} (e : Exn) : read_only (@raise A e).
Proof. by intros w. Qed.

Lemma read_only_bind {A B} (m : M A) (k : A → M B) :
  read_only m → (∀ a, read_only (k a)) → read_only (m ≫= k).
Proof.
  intros Hm Hk w. unfold mbind, M_bind, bind.
  destruct (Hm w) as (Hfs & Hclock & Hfaults).
  destruct (m w) as [[a|e|] w1]; simpl in *; [|done..].
  destruct (Hk a w1) as (Hfs' & Hclock' & Hfaults').
  by rewrite Hfs', Hclock', Hfaults'.
Qed.

Lemma read_only_try_except {A} (body : M A) (handler : Exn → option (M A)) :
  read_only body →
  (∀ e h, handler e = Some h → read_only h) →
  read_only (try_except body handler).
Proof.
  intros Hm Hh w. unfold try_except.
  destruct (Hm w) as (Hfs & Hclock & Hfaults).
  destruct (body w) as [[a|e|] w1]; simpl in *; [done| |done].
  destruct (handler e) as [h|] eqn:He; [|done].
  destruct (Hh e h He w1) as (Hfs' & Hclock' & Hfaults').
  by rewrite Hfs', Hclock', Hfaults'.
Qed.

Lemma read_only_emit {A} (m : M A) (e : Event) (r : World → Res A) :
  (∀ w, m w = (r w, emit e w)) → read_only m.
Proof. intros Hm w. by rewrite Hm. Qed.

Lemma read_only_Exists p : read_only (Exists p).
Proof. by intros w. Qed.

Lemma read_only_ListDirectory p : read_only (ListDirectory p).
Proof. intros w. unfold ListDirectory. by destruct (fs w !! p) as [[]|]. Qed.

Lemma read_only_read_file_to_string p : read_only (read_file_to_string p).
Proof.
  intros w. unfold read_file_to_string. by destruct (fs w !! p) as [[]|].
Qed.

Lemma read_only_dir_size p : read_only (_dir_size p).
Proof. intros w. unfold _dir_size. by destruct (fs w !! p) as [[]|]. Qed.

Lemma read_only_time_time : read_only time_time.
Proof. by intros w. Qed.

Lemma read_only_logging_warning msg : read_only (logging_warning msg).
Proof. by intros w. Qed.

Lemma read_only_logging_info msg : read_only (logging_info msg).
Proof. by intros w. Qed.

Lemma read_only_module_dir lock_filename : read_only (_module_dir lock_filename).
Proof. intros w. unfold _module_dir. by destruct (negb _). Qed.

Lemma read_only_check_module_exists module_dir :
  read_only (check_module_exists module_dir).
Proof.
  unfold check_module_exists.
  apply read_only_bind; [apply read_only_Exists|]. intros [|].
  - apply read_only_bind; [apply read_only_ListDirectory|].
    intros elems. apply read_only_ret.
  - apply read_only_ret.
Qed.

Lemma read_only_locked_tmp_dir_size absolute_path lock_filename :
  read_only (_locked_tmp_dir_size absolute_path lock_filename).
Proof.
  unfold _locked_tmp_dir_size, _task_uid_from_lock_file.
  apply read_only_bind.
  { apply read_only_bind; [apply read_only_read_file_to_string|].
    intros lock. apply read_only_ret. }
  intros task_uid. apply read_only_try_except.
  - apply read_only_bind; [apply read_only_module_dir|].
    intros module_dir. apply read_only_dir_size.
  - intros e h He. destruct e as [[]| | | |]; simplify_eq/=.
    apply read_only_ret.
Qed.

End ReadOnly.

Section MonitorFacts.

Variable absolute_path : string -> string.

Lemma locked_tmp_dir_size_result (lock_file : string) (w : World) :
  (_locked_tmp_dir_size absolute_path lock_file w).1 ≠ OutOfFuel.
Proof.
  unfold _locked_tmp_dir_size, _task_uid_from_lock_file, read_file_to_string,
    _module_dir, _dir_size, try_except, on_not_found.
  unfold mbind, M_bind, bind, ret, raise. simpl.
  repeat case_match; simplify_eq/=; done.
Qed.

(** What one pass of the wait loop can do: it always sleeps five
    seconds; it either leaves the namespace alone or removes the lock
    file, and the latter only on a late check that finds the recorded
    lock text again. *)
Lemma wait_iteration_cases (handle lock_file : string) (timeout : Z)
  (v : WaitVars) (w w' : World) (r : Res (LoopCtl WaitVars)) :
  wait_iteration absolute_path handle lock_file timeout v w = (r, w') →
  clock w' = (clock w + 5)%Z
  ∧ write_faults w' = write_faults w
  ∧ ((fs w' = fs w
      ∧ match r with
        | Ok Break => False
        | Ok (Next v') =>
            v' = v
            ∨ ((clock w - locked_tmp_dir_size_check_time v > timeout)%Z
               ∧ locked_tmp_dir_size_check_time v' = clock w
               ∧ lock_file_content v' ≠ None)
        | _ => True
        end)
     ∨ (r = Ok Break
        ∧ fs w' = delete lock_file (fs w)
        ∧ (clock w - locked_tmp_dir_size_check_time v > timeout)%Z
        ∧ (∃ c, fs w !! lock_file = Some (File c)
                ∧ lock_file_content v = Some c)
        ∧ ∃ w0, fs w0 = fs w
                ∧ (_locked_tmp_dir_size absolute_path lock_file w0).1
                  = Ok (locked_tmp_dir_size v))).
Proof.
  unfold wait_iteration, try_finally, try_except.
  rewrite bind_unfold. unfold read_file_to_string at 1.
  destruct (fs w !! lock_file) as [[c|entries]|] eqn:Hlock.
  2:{ simpl. intros [= <- <-]. simpl. intuition. }
  2:{ simpl. intros [= <- <-]. simpl. intuition. }
  rewrite bind_unfold. unfold time_time at 1. simpl clock.
  destruct (_ >? _)%Z eqn:Hgt.
  2:{ simpl. intros [= <- <-]. simpl. intuition. }
  apply Z.gtb_lt in Hgt. simpl in Hgt.
  rewrite bind_unfold.
  destruct (read_only_locked_tmp_dir_size absolute_path lock_file
              (emit (EvRead lock_file) w)) as (Hfs2 & Hclock2 & Hfaults2).
  pose proof (locked_tmp_dir_size_result lock_file
                (emit (EvRead lock_file) w)) as Hres.
  destruct (_locked_tmp_dir_size absolute_path lock_file
              (emit (EvRead lock_file) w)) as [[size|e|] w2] eqn:Hsize.
  - rewrite bind_unfold. unfold read_file_to_string at 1.
    simpl in Hfs2, Hclock2, Hfaults2. rewrite Hfs2, Hlock.
    destruct (_ && _) eqn:Hsame.
    + unfold logging_warning, Remove, mbind, M_bind, bind, ret, time_sleep.
      simpl. rewrite Hfs2, Hlock. simpl. intros [= <- <-]. simpl.
      rewrite ?Hclock2, ?Hfaults2, ?Hfs2. split; [done|]. split; [done|].
      right. split; [done|]. split; [done|]. split; [lia|].
      apply andb_true_iff in Hsame as [Hs Hc].
      apply bool_decide_eq_true_1 in Hc. apply Z.eqb_eq in Hs. subst size.
      split; [by exists c|].
      exists (emit (EvRead lock_file) w). split; [done|]. by rewrite Hsize.
    + unfold mbind, M_bind, bind, ret, time_time, time_sleep.
      simpl. intros [= <- <-]. simpl.
      rewrite ?Hclock2, ?Hfaults2, ?Hfs2. split; [done|]. split; [done|].
      left. split; [done|]. right. split; [lia|]. done.
  - simpl in Hfs2, Hclock2, Hfaults2.
    destruct e as [[]| | | |]; simpl; intros [= <- <-]; simpl;
      rewrite ?Hclock2, ?Hfaults2, ?Hfs2; intuition.
  - done.
Qed.

(** The wait loop, started at time [t0]: the clock never goes back, the
    fault schedule is untouched, and the only change to the namespace it
    can make is to remove the lock file, which it does no sooner than
    twice the timeout after [t0]. *)
Lemma wait_loop_inv (fuel : nat) (handle lock_file : string)
  (timeout t0 : Z) (v : WaitVars) (w w' : World) (r : Res unit) :
  wait_loop absolute_path fuel handle lock_file timeout v w = (r, w') →
  (t0 ≤ locked_tmp_dir_size_check_time v ≤ clock w)%Z →
  (lock_file_content v = None
   ∨ (locked_tmp_dir_size_check_time v - t0 > timeout)%Z) →
  (clock w ≤ clock w')%Z
  ∧ write_faults w' = write_faults w
  ∧ (fs w' = fs w
     ∨ (fs w' = delete lock_file (fs w)
        ∧ is_Some (fs w !! lock_file)
        ∧ r = Ok tt
        ∧ (clock w' - t0 > 2 * timeout)%Z)).
Proof.
  revert v w. induction fuel as [|fuel IH]; intros v w Hrun Htime Hseen.
  { simpl in Hrun. injection Hrun as <- <-. auto with lia. }
  simpl in Hrun. rewrite bind_unfold in Hrun. unfold Exists at 1 in Hrun.
  destruct (bool_decide (is_Some (fs w !! lock_file))).
  2:{ injection Hrun as <- <-. simpl. auto with lia. }
  rewrite bind_unfold in Hrun.
  destruct (wait_iteration absolute_path handle lock_file timeout v
              (emit (EvExists lock_file) w)) as [[[|v']|e|] w1] eqn:Hiter.
  all: apply wait_iteration_cases in Hiter as (Hclock & Hfaults & Hcases).
  all: simpl in Hclock, Hfaults, Hcases.
  - injection Hrun as <- <-.
    destruct Hcases
      as [[_ []]|(_ & Hfs & Hlate & (c & Hlock & Hcontent) & _)].
    split; [lia|]. split; [done|]. right.
    split; [done|]. split; [by eexists|]. split; [done|].
    destruct Hseen as [Hnone|Hseen]; [congruence | lia].
  - destruct Hcases as [[Hfs Hv']|(? & _)]; [|done].
    apply IH in Hrun as (Hclock' & Hfaults' & Hfs').
    + split; [lia|]. split; [congruence|].
      rewrite Hfs in Hfs'. exact Hfs'.
    + destruct Hv' as [->|(Hlate & -> & _)]; lia.
    + destruct Hv' as [->|(Hlate & Hv' & _)]; [done|]. right. lia.
  - injection Hrun as <- <-.
    destruct Hcases as [[Hfs _]|(? & _)]; [|done].
    split; [lia|]. auto.
  - injection Hrun as <- <-.
    destruct Hcases as [[Hfs _]|(? & _)]; [|done].
    split; [lia|]. auto.
Qed.

End MonitorFacts.

Section StringExtras.

Lemma split_fields_without_sep (sep : ascii) (s : string) :
  Forall (λ field, Py.contains sep field = false) (Py.split sep s).
Proof.
  induction s as [|c s IH]; simpl; [by repeat constructor|].
  case_decide as Hc; [by constructor|].
  destruct (Py.split sep s) as [|field fields]; simpl.
  - repeat constructor. simpl. by rewrite decide_False.
  - inversion IH as [|? ? Hfield Hfields]; subst.
    constructor; [|done]. simpl. by rewrite decide_False.
Qed.

Lemma prefix_append (pre s : string) :
  String.prefix pre s = true ↔ ∃ rest, s = pre +:+ rest.
Proof.
  revert s. induction pre as [|c pre IH]; intros s.
  - split; [intros _; by exists s | by destruct s].
  - destruct s as [|d s]; simpl.
    + split; [done | intros [rest Hrest]; by rewrite append_cons in Hrest].
    + destruct (Ascii.ascii_dec c d) as [->|Hne].
      * rewrite IH. split; intros [rest Hrest]; exists rest.
        -- by rewrite append_cons, Hrest.
        -- rewrite append_cons in Hrest. by injection Hrest.
      * split; [done|]. intros [rest Hrest].
        rewrite append_cons in Hrest. by injection Hrest.
Qed.

End StringExtras.

Section LockRecordExtras.

Variable absolute_path : string -> string.
Variable hostname : string.
Variable pid : Z.

Notation lock_filename := (_lock_filename absolute_path).
Notation lock_file_contents := (_lock_file_contents hostname pid).
Notation temp_download_dir := (_temp_download_dir absolute_path).

(** [_module_dir] undoes [_lock_filename]; a name that does not end in
    [.lock] is refused with a [ValueError], and neither case touches the
    world. *)
Theorem module_dir_inverts_lock_filename (w : World) :
  (∀ module_dir : string,
     _module_dir (lock_filename module_dir) w
     = (Ok (absolute_path module_dir), w))
  ∧ (∀ name : string,
       Py.endswith name ".lock" = false →
       _module_dir name w
       = (Raise (ValueError ("Lock file name (" +:+ name +:+
                             ") has to end with .lock.")), w)).
Proof.
  split.
  - intros module_dir. unfold _module_dir, _lock_filename.
    rewrite endswith_append. simpl negb. cbv iota.
    by rewrite drop_last_append.
  - intros name Hname. unfold _module_dir. by rewrite Hname.
Qed.

(** The uid read back from any lock text, well formed or not, contains
    no dot; a text without a dot is its own uid. *)
Theorem task_uid_of_lock_has_no_dot (lock : string) :
  Py.contains "." (task_uid_of_lock lock) = false
  ∧ (Py.contains "." lock = false → task_uid_of_lock lock = lock).
Proof.
  split.
  - unfold task_uid_of_lock, Py.last_item.
    pose proof (split_fields_without_sep "." lock) as Hfields.
    destruct (last (Py.split "." lock)) as [field|] eqn:Hlast; [|done].
    simpl. apply last_Some in Hlast as [fields Hsplit].
    rewrite Hsplit in Hfields.
    apply Forall_app in Hfields as [_ Hfield].
    by inversion Hfield.
  - intros Hlock. unfold task_uid_of_lock, Py.last_item.
    by rewrite split_without_sep.
Qed.

Lemma task_uid_of_lock_file_contents (task_uid : string) :
  Py.contains "." task_uid = false →
  task_uid_of_lock (lock_file_contents task_uid) = task_uid.
Proof.
  intros Huid. unfold task_uid_of_lock, _lock_file_contents.
  rewrite <- (append_assoc hostname "." _), <- (append_assoc _ (pretty pid) _).
  change ("." +:+ task_uid) with (String "." task_uid).
  by rewrite last_field_after_sep.
Qed.

(** The directory the monitor measures for a lock written by task
    [task_uid] is that task's temporary download directory, provided
    [absolute_path] leaves absolute paths alone; a directory that does
    not exist (yet, or any more) measures 0. *)
Theorem monitor_measures_holder_tmp_dir
  (module_dir task_uid : string) (w : World) :
  absolute_path (absolute_path module_dir) = absolute_path module_dir →
  Py.contains "." task_uid = false →
  fs w !! lock_filename module_dir
    = Some (File (lock_file_contents task_uid)) →
  (_locked_tmp_dir_size absolute_path (lock_filename module_dir) w).1
  = Ok (observed_size (fs w) (temp_download_dir module_dir task_uid))
  ∧ (fs w !! temp_download_dir module_dir task_uid = None →
     (_locked_tmp_dir_size absolute_path (lock_filename module_dir) w).1
     = Ok 0%Z).
Proof.
  intros Habs Huid Hlock.
  assert (Hdir :
    temp_download_dir (absolute_path module_dir)
      (task_uid_of_lock (lock_file_contents task_uid))
    = temp_download_dir module_dir task_uid).
  { rewrite task_uid_of_lock_file_contents by done.
    unfold _temp_download_dir. by rewrite Habs. }
  rewrite (locked_tmp_dir_size_run absolute_path module_dir w _ Hlock).
  rewrite Hdir. simpl.
  split; [done|]. intros Htmp. unfold observed_size. by rewrite Htmp.
Qed.

(** Errors of [_locked_tmp_dir_size] that are not turned into a size:
    a missing lock file is a not-found error, and a lock file whose name
    does not end in [.lock] is a [ValueError]. *)
Theorem locked_tmp_dir_size_errors (lock_file : string) (w : World) :
  (fs w !! lock_file = None →
   (_locked_tmp_dir_size absolute_path lock_file w).1
   = Raise (OpError NotFound))
  ∧ (∀ c : string,
       fs w !! lock_file = Some (File c) →
       Py.endswith lock_file ".lock" = false →
       (_locked_tmp_dir_size absolute_path lock_file w).1
       = Raise (ValueError ("Lock file name (" +:+ lock_file +:+
                            ") has to end with .lock."))).
Proof.
  split.
  - intros Hlock.
    unfold _locked_tmp_dir_size, _task_uid_from_lock_file,
      read_file_to_string, mbind, M_bind, bind.
    by rewrite Hlock.
  - intros c Hlock Hname.
    unfold _locked_tmp_dir_size, _task_uid_from_lock_file,
      read_file_to_string, _module_dir, try_except, mbind, M_bind, bind.
    by rewrite Hlock, Hname.
Qed.

End LockRecordExtras.

Section MonitorExtras.

Variable absolute_path : string -> string.

(** One pass of the wait loop always sleeps five seconds, and changes
    the namespace only by removing the lock file, only on a check made
    more than the timeout after the last recorded one, and only when the
    lock text and the holder's directory size are the recorded ones. *)
Theorem lock_removed_only_when_stale (handle lock_file : string)
  (timeout : Z) (v : WaitVars) (w w' : World) (r : Res (LoopCtl WaitVars)) :
  wait_iteration absolute_path handle lock_file timeout v w = (r, w') →
  clock w' = (clock w + 5)%Z
  ∧ (fs w' ≠ fs w →
     r = Ok Break
     ∧ fs w' = delete lock_file (fs w)
     ∧ (clock w - locked_tmp_dir_size_check_time v > timeout)%Z
     ∧ (∃ c, fs w !! lock_file = Some (File c) ∧ lock_file_content v = Some c)
     ∧ ∃ w0, fs w0 = fs w
             ∧ (_locked_tmp_dir_size absolute_path lock_file w0).1
               = Ok (locked_tmp_dir_size v)).
Proof.
  intros Hrun.
  apply wait_iteration_cases in Hrun as (Hclock & _ & [[Hfs _]|Hsteal]).
  - split; [done|]. intros Hne. by destruct Hne.
  - split; [done|]. intros _. exact Hsteal.
Qed.

Lemma wait_for_lock_inv (fuel : nat) (handle lock_file : string)
  (timeout : Z) (w w' : World) (r : Res unit) :
  _wait_for_lock_to_disappear absolute_path fuel handle lock_file timeout w
  = (r, w') →
  (clock w ≤ clock w')%Z
  ∧ write_faults w' = write_faults w
  ∧ (fs w' = fs w
     ∨ (fs w' = delete lock_file (fs w)
        ∧ is_Some (fs w !! lock_file)
        ∧ r = Ok tt
        ∧ (clock w' - clock w > 2 * timeout)%Z)).
Proof.
  unfold _wait_for_lock_to_disappear. rewrite bind_unfold. simpl.
  intros Hrun.
  apply (wait_loop_inv absolute_path _ _ _ _ (clock w)) in Hrun;
    [done | simpl; lia | by left].
Qed.

(** Waiting for a lock touches nothing but the lock file: every other
    path, the fault schedule and the direction of the clock are as
    before, and the lock file is either as before or removed. *)
Theorem wait_only_removes_lock (fuel : nat) (handle lock_file : string)
  (timeout : Z) (w w' : World) (r : Res unit) :
  _wait_for_lock_to_disappear absolute_path fuel handle lock_file timeout w
  = (r, w') →
  write_faults w' = write_faults w
  ∧ (clock w ≤ clock w')%Z
  ∧ (fs w' = fs w ∨ fs w' = delete lock_file (fs w))
  ∧ (∀ path : string, path ≠ lock_file → fs w' !! path = fs w !! path).
Proof.
  intros Hrun.
  apply wait_for_lock_inv in Hrun as (Hclock & Hfaults & Hfs).
  split; [done|]. split; [done|].
  destruct Hfs as [Hfs|(Hfs & _)]; rewrite Hfs.
  - split; [by left|done].
  - split; [by right|]. intros path Hpath. by rewrite lookup_delete_ne.
Qed.

(** A lock that was there when the wait began and is gone when it ends
    was given more than twice the timeout. *)
Theorem wait_never_steals_early (fuel : nat) (handle lock_file : string)
  (timeout : Z) (w w' : World) (r : Res unit) :
  _wait_for_lock_to_disappear absolute_path fuel handle lock_file timeout w
  = (r, w') →
  is_Some (fs w !! lock_file) →
  fs w' !! lock_file = None →
  r = Ok tt ∧ (clock w' - clock w > 2 * timeout)%Z.
Proof.
  intros Hrun [n Hlock] Hgone.
  apply wait_for_lock_inv in Hrun as (_ & _ & [Hfs|(_ & _ & Hr & Hlate)]).
  - rewrite Hfs, Hlock in Hgone. done.
  - done.
Qed.

End MonitorExtras.

Section AcquisitionFacts.

Variable absolute_path : string -> string.

(** What one attempt to take the lock can do. Either nothing was written
    (a backend fault, or the lock file exists) and the attempt ends with
    a retry or a permanent error; or the lock file was created, and then
    the module directory is found populated, or is removed if it was
    there, or turns out to be a file. *)
Lemma acquisition_attempt_cases (module_dir lock_file lock_contents : string)
  (w w' : World) (r : Res (option Acquisition)) :
  acquisition_attempt module_dir lock_file lock_contents w = (r, w') →
  clock w' = clock w
  ∧ write_faults w' = tail (write_faults w)
  ∧ ((fs w' = fs w
      ∧ (is_Some (fs w !! lock_file) ∨ ∃ code, head (write_faults w) = Some (Some code))
      ∧ (r = Ok None
         ∨ ∃ code, r = Raise (OpError code) ∧ permanent code = true))
     ∨ (fs w !! lock_file = None
        ∧ (∀ code, head (write_faults w) ≠ Some (Some code))
        ∧ ((r = Ok (Some ModuleFound)
            ∧ fs w' = <[lock_file := File lock_contents]> (fs w)
            ∧ ∃ e es, fs w' !! module_dir = Some (Dir (e :: es)))
           ∨ (r = Ok (Some LockAcquired)
              ∧ fs w'
                = delete module_dir (<[lock_file := File lock_contents]> (fs w)))
           ∨ (r = Raise (OpError NotFound)
              ∧ fs w' = <[lock_file := File lock_contents]> (fs w)
              ∧ ∃ content, fs w' !! module_dir = Some (File content))))).
Proof.
  unfold acquisition_attempt, atomic_write_string_to_file,
    check_module_exists, Exists, ListDirectory, DeleteRecursively,
    acquisition_handler.
  unfold mbind, M_bind, bind, ret, raise, try_except.
  intros Hrun. simpl in Hrun.
  destruct (write_faults w) as [|[code|] rest] eqn:Hfaults; simpl in *.
  2:{ destruct (permanent code) eqn:Hperm; injection Hrun as <- <-; simpl;
        rewrite ?Hfaults; simpl.
      all: split; [done|]; split; [done|]; left; split; [done|].
      all: split; [right; by exists code|]. all: eauto. }
  all: destruct (fs w !! lock_file) as [n|] eqn:Hlock; simpl in Hrun.
  all: try (injection Hrun as <- <-; simpl; rewrite ?Hfaults; simpl;
            split; [done|]; split; [done|];
            left; split; [done|]; split; [by left; eexists|]; by left).
  all: destruct (<[lock_file:=File lock_contents]> (fs w) !! module_dir)
         as [[content|[|e es]]|] eqn:Hmod; simpl in Hrun.
  all: do 3 (rewrite ?Hmod in Hrun; simpl in Hrun).
  all: injection Hrun as <- <-; simpl; rewrite ?Hfaults; simpl.
  all: split; [done|]; split; [done|]; right; split; [done|].
  all: split; [intros code; done|].
  all: try rewrite (delete_id _ _ Hmod).
  all: first [ by right; left
             | by left; split; [done|]; split; [done|]; eauto
             | by right; right; split; [done|]; split; [done|]; eauto ].
Qed.

(** The acquisition loop: the clock never goes back; paths other than the
    lock file and the module directory are untouched; and when it ends
    holding the lock, the lock file carries this task's text and the
    module directory is absent, while when it ends having found the
    module, the module directory is a non-empty directory. *)
Lemma acquisition_loop_inv (fuel : nat)
  (handle module_dir lock_file lock_contents : string) (timeout : Z)
  (w w' : World) (r : Res Acquisition) :
  acquisition_loop absolute_path fuel handle module_dir lock_file
    lock_contents timeout w = (r, w') →
  (clock w ≤ clock w')%Z
  ∧ (∀ path : string,
       path ≠ lock_file → path ≠ module_dir → fs w' !! path = fs w !! path)
  ∧ (r = Ok LockAcquired →
     fs w' !! module_dir = None
     ∧ (lock_file ≠ module_dir →
        fs w' !! lock_file = Some (File lock_contents)))
  ∧ (r = Ok ModuleFound →
     (∃ e es, fs w' !! module_dir = Some (Dir (e :: es)))
     ∧ (lock_file ≠ module_dir →
        fs w' !! lock_file = Some (File lock_contents))).
Proof.
  revert w. induction fuel as [|fuel IH]; intros w Hrun; simpl in Hrun.
  { injection Hrun as <- <-. repeat split; (lia || done). }
  rewrite bind_unfold in Hrun.
  destruct (acquisition_attempt module_dir lock_file lock_contents w)
    as [[[a|]|e|] w1] eqn:Hattempt.
  all: apply acquisition_attempt_cases in Hattempt
         as (Hclock & _ & Hcases).
  - (* the loop is left *)
    injection Hrun as <- <-.
    destruct Hcases as [(_ & _ & [?|(? & ? & _)])|(Hlock & _ & Hwritten)];
      [done..|].
    split; [lia|].
    destruct Hwritten as [(Hr & Hfs & Hmod)|[(Hr & Hfs)|(? & _)]]; [| |done].
    + injection Hr as ->. split; [|split; [done|]].
      * intros path Hpl Hpm. by rewrite Hfs, lookup_insert_ne.
      * intros _. split; [done|]. intros Hne. by rewrite Hfs, lookup_insert_eq.
    + injection Hr as ->. split; [|split; [|done]].
      * intros path Hpl Hpm.
        by rewrite Hfs, lookup_delete_ne, lookup_insert_ne.
      * intros _. rewrite Hfs. split; [apply lookup_delete_eq|].
        intros Hne. by rewrite lookup_delete_ne, lookup_insert_eq.
  - (* the attempt is retried after waiting *)
    destruct Hcases as [(Hfs & _)|(_ & _ & [(?&_)|[(?&_)|(?&_)]])]; [|done..].
    rewrite bind_unfold in Hrun.
    destruct (_wait_for_lock_to_disappear absolute_path fuel handle lock_file
                timeout w1) as [[[]|e|] w2] eqn:Hwait.
    all: apply wait_for_lock_inv in Hwait as (Hclock2 & _ & Hfs2).
    all: assert (Hframe : ∀ path, path ≠ lock_file →
                   fs w2 !! path = fs w !! path)
      by (intros path Hpath; rewrite <- Hfs;
          destruct Hfs2 as [->|(-> & _)]; [done | by rewrite lookup_delete_ne]).
    + apply IH in Hrun as (Hclock3 & Hframe3 & Hacq & Hfound).
      split; [lia|]. split; [|done].
      intros path Hpl Hpm. rewrite Hframe3 by done. by apply Hframe.
    + injection Hrun as <- <-. split; [lia|]. split; [|done].
      intros path Hpl _. by apply Hframe.
    + injection Hrun as <- <-. split; [lia|]. split; [|done].
      intros path Hpl _. by apply Hframe.
  - (* a permanent error *)
    injection Hrun as <- <-. split; [lia|]. split; [|done].
    destruct Hcases as [(Hfs & _)|(_ & _ & [(?&_)|[(?&_)|(_ & Hfs & _)]])];
      [|done..|].
    + intros path _ _. by rewrite Hfs.
    + intros path Hpl _. by rewrite Hfs, lookup_insert_ne.
  - injection Hrun as <- <-. split; [lia|]. split; [|done].
    destruct Hcases as [(Hfs & _)|(_ & _ & [(?&_)|[(?&_)|(?&_)]])]; [|done..].
    intros path _ _. by rewrite Hfs.
Qed.

End AcquisitionFacts.

Section ProtocolExtras.

Variable absolute_path : string -> string.
Variable hostname : string.
Variable pid : Z.
Variable today : Z -> string.

Notation lock_filename := (_lock_filename absolute_path).
Notation lock_file_contents := (_lock_file_contents hostname pid).
Notation temp_download_dir := (_temp_download_dir absolute_path).
Notation download := (atomic_download absolute_path hostname pid today).

(** While a lock file exists, an attempt to take the lock writes
    nothing: the existing lock, whoever wrote it, is never overwritten,
    and the attempt ends with a retry or with a permanent backend
    error, never with the lock. *)
Theorem existing_lock_blocks_attempt
  (module_dir lock_file lock_contents : string) (w w' : World)
  (r : Res (option Acquisition)) :
  is_Some (fs w !! lock_file) →
  acquisition_attempt module_dir lock_file lock_contents w = (r, w') →
  fs w' = fs w
  ∧ clock w' = clock w
  ∧ (r = Ok None
     ∨ ∃ code, r = Raise (OpError code) ∧ permanent code = true).
Proof.
  intros [n Hlock] Hrun.
  apply acquisition_attempt_cases in Hrun
    as (Hclock & _ & [(Hfs & _ & Hr)|(Hnone & _)]); [done|].
  congruence.
Qed.

(** When the acquisition loop ends with the lock, the lock file holds
    this task's text and the module directory does not exist; when it
    ends because the module was found, the module directory is a
    non-empty directory. *)
Theorem acquired_lock_is_held (fuel : nat)
  (handle module_dir lock_file lock_contents : string) (timeout : Z)
  (w w' : World) (a : Acquisition) :
  lock_file ≠ module_dir →
  acquisition_loop absolute_path fuel handle module_dir lock_file
    lock_contents timeout w = (Ok a, w') →
  fs w' !! lock_file = Some (File lock_contents)
  ∧ match a with
    | LockAcquired => fs w' !! module_dir = None
    | ModuleFound => ∃ e es, fs w' !! module_dir = Some (Dir (e :: es))
    end.
Proof.
  intros Hne Hrun.
  apply acquisition_loop_inv in Hrun as (_ & _ & Hacq & Hfound).
  destruct a.
  - destruct (Hacq eq_refl) as [Hmod Hlock]. auto.
  - destruct (Hfound eq_refl) as [Hmod Hlock]. auto.
Qed.

(** Whatever way the acquisition loop ends, it has touched no path
    other than the lock file and the module directory, and the clock has
    not gone back. *)
Theorem acquisition_touches_two_paths (fuel : nat)
  (handle module_dir lock_file lock_contents : string) (timeout : Z)
  (w w' : World) (r : Res Acquisition) :
  acquisition_loop absolute_path fuel handle module_dir lock_file
    lock_contents timeout w = (r, w') →
  (clock w ≤ clock w')%Z
  ∧ ∀ path : string,
      path ≠ lock_file → path ≠ module_dir → fs w' !! path = fs w !! path.
Proof.
  intros Hrun.
  apply acquisition_loop_inv in Hrun as (Hclock & Hframe & _). auto.
Qed.

(** A lock creation that fails with a class that is not permanent, while
    no lock file exists, is retried without any delay: the next attempt
    starts at the same clock value on the same namespace. *)
Theorem transient_fault_retried_at_once (fuel : nat)
  (handle module_dir lock_file lock_contents : string) (timeout : Z)
  (w : World) (code : ErrCode) (rest : list (option ErrCode)) :
  write_faults w = Some code :: rest →
  permanent code = false →
  fs w !! lock_file = None →
  let w1 := emit (EvExists lock_file)
              (pop_fault (emit (EvWrite lock_file lock_contents false) w)) in
  acquisition_loop absolute_path (S (S fuel)) handle module_dir lock_file
    lock_contents timeout w
  = acquisition_loop absolute_path (S fuel) handle module_dir lock_file
      lock_contents timeout w1
  ∧ clock w1 = clock w ∧ fs w1 = fs w ∧ write_faults w1 = rest.
Proof.
  intros Hfaults Hperm Hlock w1.
  split; [|by simpl; rewrite Hfaults].
  remember (S fuel) as fuel' eqn:Hfuel.
  simpl. rewrite bind_unfold.
  unfold acquisition_attempt, atomic_write_string_to_file,
    acquisition_handler, try_except.
  rewrite bind_unfold, Hfaults. rewrite Hperm. unfold ret at 1.
  rewrite bind_unfold. unfold _wait_for_lock_to_disappear.
  rewrite bind_unfold. unfold time_time at 1. subst fuel'.
  simpl wait_loop. rewrite bind_unfold. unfold Exists at 1.
  change (fs (pop_fault (emit (EvWrite lock_file lock_contents false) w)))
    with (fs w). rewrite Hlock.
  rewrite bool_decide_eq_false_2 by (by intros [? ?]).
  reflexivity.
Qed.

(** *** From an empty cache to a published module *)

Lemma fault_free_head (w : World) (code : ErrCode) (rest : list (option ErrCode)) :
  fault_free w → write_faults w ≠ Some code :: rest.
Proof.
  unfold fault_free. intros Hfree Heq. rewrite Heq in Hfree.
  by inversion Hfree.
Qed.

Lemma fault_free_tail (w w' : World) :
  fault_free w → write_faults w' = tail (write_faults w) → fault_free w'.
Proof.
  unfold fault_free. intros Hfree ->.
  destruct (write_faults w); [done|]. by inversion Hfree.
Qed.

Lemma acquisition_fresh_run (fuel : nat)
  (handle module_dir lock_file lock_contents : string) (timeout : Z)
  (w : World) :
  fs w !! lock_file = None →
  fs w !! module_dir = None →
  fault_free w →
  lock_file ≠ module_dir →
  acquisition_loop absolute_path (S fuel) handle module_dir lock_file
    lock_contents timeout w
  = (Ok LockAcquired,
     emit (EvExists module_dir)
       (emit (EvExists module_dir)
          (set_fs (<[lock_file := File lock_contents]> (fs w))
             (pop_fault (emit (EvWrite lock_file lock_contents false) w))))).
Proof.
  intros Hlock Hmod Hfree Hne.
  simpl. rewrite bind_unfold.
  unfold acquisition_attempt, atomic_write_string_to_file,
    check_module_exists, Exists, try_except.
  unfold mbind, M_bind, bind, ret.
  destruct (write_faults w) as [|[code|] rest] eqn:Hfaults.
  2:{ by destruct (fault_free_head w code rest). }
  all: rewrite Hlock; simpl.
  all: rewrite lookup_insert_ne, Hmod by done; simpl.
  all: by rewrite lookup_insert_ne, Hmod by done.
Qed.

(** The part of [atomic_download] after the lock is taken, when the
    callback fills the temporary directory and nobody interferes. *)
Lemma publish_after_acquisition
  (fuel : nat) (task_uid handle : string) (download_fn : DownloadFn)
  (module_dir : string) (timeout : Z)
  (w w0 w1 : World) (f : gmap string node) (artifact : node) :
  let lock_file := lock_filename module_dir in
  let lock_contents := lock_file_contents task_uid in
  let tmp_dir := temp_download_dir module_dir task_uid in
  let descriptor := _module_descriptor_file module_dir in
  check_module_exists module_dir w = (Ok false, w0) →
  acquisition_loop absolute_path fuel handle module_dir lock_file
    lock_contents timeout w0 = (Ok LockAcquired, w1) →
  fs w1 !! tmp_dir = None →
  fault_free w1 →
  download_fn handle tmp_dir (<[tmp_dir := Dir []]> (fs w1)) = (None, f) →
  f !! tmp_dir = Some artifact →
  f !! module_dir = None →
  f !! lock_file = Some (File lock_contents) →
  module_dir ≠ tmp_dir → module_dir ≠ lock_file →
  descriptor ≠ tmp_dir → descriptor ≠ lock_file →
  ∃ wf : World,
    download fuel task_uid handle download_fn module_dir timeout w
    = (Ok module_dir, wf)
    ∧ fs wf !! module_dir = Some artifact
    ∧ fs wf !! tmp_dir = None
    ∧ fs wf !! lock_file = None
    ∧ (∃ text, fs wf !! descriptor = Some (File text))
    ∧ (∀ path : string,
         path ≠ module_dir → path ≠ tmp_dir → path ≠ lock_file →
         path ≠ descriptor → fs wf !! path = f !! path)
    ∧ clock wf = clock w1.
Proof.
  intros lock_file lock_contents tmp_dir descriptor
    Hcheck Hacq Htmp Hfree Hdl Hart Hmod Hlock Hmt Hml Hdt Hdl'.
  pose proof (temp_dir_not_lock_file absolute_path module_dir task_uid) as Hne.
  pose proof (lock_file_contents_nonempty hostname pid task_uid) as Hnonempty.
  pose proof (descriptor_not_module_dir module_dir) as Hdm.
  fold lock_file tmp_dir in Hne. fold lock_contents in Hnonempty.
  fold descriptor in Hdm.
  unfold atomic_download. fold lock_file lock_contents tmp_dir.
  unfold mbind at 1. unfold M_bind at 1. unfold bind at 1. rewrite Hcheck.
  unfold try_finally.
  unfold mbind at 1. unfold M_bind at 1. unfold bind at 1. rewrite Hacq.
  unfold logging_info, MakeDirs, call_download_fn,
    _write_module_descriptor_file, atomic_write_string_to_file, time_time,
    Rename, logging_warning.
  fold descriptor.
  unfold mbind, M_bind, bind, ret, try_except.
  simpl. rewrite Htmp. simpl. rewrite Hdl. simpl.
  destruct (write_faults w1) as [|[code|] rest] eqn:Hwf; simpl.
  2:{ by destruct (fault_free_head w1 code rest). }
  all: fs_lookup; rewrite Hmod; simpl.
  all: fs_lookup; rewrite Hart; simpl.
  all: rewrite cleanup_run; simpl;
    [ | done | done | intros entries; fs_lookup; by rewrite Hlock ].
  all: unfold lock_owned; fs_lookup; rewrite Hlock, String.eqb_refl.
  all: eexists; split; [reflexivity|]; simpl.
  all: split; [by fs_lookup|].
  all: split; [by fs_lookup|].
  all: split; [by fs_lookup|].
  all: split; [eexists; by fs_lookup|].
  all: split; [intros path ? ? ? ?; by fs_lookup | done].
Qed.

Lemma fresh_download_run
  (fuel : nat) (task_uid handle : string) (download_fn : DownloadFn)
  (module_dir : string) (timeout : Z)
  (w : World) (f : gmap string node) (artifact : node) :
  let lock_file := lock_filename module_dir in
  let lock_contents := lock_file_contents task_uid in
  let tmp_dir := temp_download_dir module_dir task_uid in
  let descriptor := _module_descriptor_file module_dir in
  fs w !! module_dir = None →
  fs w !! lock_file = None →
  fs w !! tmp_dir = None →
  fault_free w →
  download_fn handle tmp_dir
    (<[tmp_dir := Dir []]> (<[lock_file := File lock_contents]> (fs w)))
  = (None, f) →
  f !! tmp_dir = Some artifact →
  f !! module_dir = None →
  f !! lock_file = Some (File lock_contents) →
  module_dir ≠ tmp_dir → module_dir ≠ lock_file →
  descriptor ≠ tmp_dir → descriptor ≠ lock_file →
  ∃ wf : World,
    download (S fuel) task_uid handle download_fn module_dir timeout w
    = (Ok module_dir, wf)
    ∧ fs wf !! module_dir = Some artifact
    ∧ fs wf !! tmp_dir = None
    ∧ fs wf !! lock_file = None
    ∧ (∃ text, fs wf !! descriptor = Some (File text))
    ∧ (∀ path : string,
         path ≠ module_dir → path ≠ tmp_dir → path ≠ lock_file →
         path ≠ descriptor → fs wf !! path = f !! path)
    ∧ clock wf = clock w.
Proof.
  intros lock_file lock_contents tmp_dir descriptor
    Hmod0 Hlock0 Htmp0 Hfree Hdl Hart Hmod Hlock Hmt Hml Hdt Hdl'.
  pose proof (temp_dir_not_lock_file absolute_path module_dir task_uid) as Hne.
  fold lock_file tmp_dir in Hne.
  assert (Hcheck : check_module_exists module_dir w
                   = (Ok false, emit (EvExists module_dir) w)).
  { unfold check_module_exists, Exists, mbind, M_bind, bind.
    rewrite Hmod0. by rewrite bool_decide_eq_false_2 by (by intros [? ?]). }
  pose proof (acquisition_fresh_run fuel handle module_dir lock_file
                lock_contents timeout (emit (EvExists module_dir) w)
                Hlock0 Hmod0 Hfree (not_eq_sym Hml)) as Hacq.
  destruct (publish_after_acquisition (S fuel) task_uid handle download_fn
              module_dir timeout w _ _ f artifact Hcheck Hacq)
    as (wf & Hrun & Hfacts); try done.
  - simpl. by fs_lookup.
  - eapply fault_free_tail; [exact Hfree | done].
  - exists wf. split; [exact Hrun|].
    destruct Hfacts as (? & ? & ? & ? & ? & Hclock). repeat split; try done.
Qed.

(** Starting with neither module directory, lock file nor temporary
    directory, no scheduled backend fault, and a callback that fills the
    temporary directory and leaves the lock and the module directory
    alone, [atomic_download] succeeds with any fuel of at least one: the
    callback's directory is published at [module_dir], the temporary
    directory and the lock file are gone, the descriptor file exists,
    every other path is as the callback left it, and no time was spent
    sleeping. *)
Theorem fresh_download_end_to_end
  (fuel : nat) (task_uid handle : string) (download_fn : DownloadFn)
  (module_dir : string) (timeout : Z)
  (w : World) (f : gmap string node) (artifact : node) :
  let lock_file := lock_filename module_dir in
  let lock_contents := lock_file_contents task_uid in
  let tmp_dir := temp_download_dir module_dir task_uid in
  let descriptor := _module_descriptor_file module_dir in
  fs w !! module_dir = None →
  fs w !! lock_file = None →
  fs w !! tmp_dir = None →
  fault_free w →
  download_fn handle tmp_dir
    (<[tmp_dir := Dir []]> (<[lock_file := File lock_contents]> (fs w)))
  = (None, f) →
  f !! tmp_dir = Some artifact →
  f !! module_dir = None →
  f !! lock_file = Some (File lock_contents) →
  module_dir ≠ tmp_dir → module_dir ≠ lock_file →
  descriptor ≠ tmp_dir → descriptor ≠ lock_file →
  ∃ wf : World,
    download (S fuel) task_uid handle download_fn module_dir timeout w
    = (Ok module_dir, wf)
    ∧ fs wf !! module_dir = Some artifact
    ∧ fs wf !! tmp_dir = None
    ∧ fs wf !! lock_file = None
    ∧ (∃ text, fs wf !! descriptor = Some (File text))
    ∧ (∀ path : string,
         path ≠ module_dir → path ≠ tmp_dir → path ≠ lock_file →
         path ≠ descriptor → fs wf !! path = f !! path)
    ∧ clock wf = clock w.
Proof. apply fresh_download_run. Qed.

(** After such a download of a non-empty directory, any further call of
    [atomic_download] for the same module directory, by any task and
    with any callback, returns at once on the fast path and changes
    nothing in the namespace. *)
Theorem second_download_takes_fast_path
  (fuel : nat) (task_uid handle : string) (download_fn : DownloadFn)
  (module_dir : string) (timeout : Z)
  (w : World) (f : gmap string node)
  (e : string * node) (es : list (string * node)) :
  let lock_file := lock_filename module_dir in
  let lock_contents := lock_file_contents task_uid in
  let tmp_dir := temp_download_dir module_dir task_uid in
  let descriptor := _module_descriptor_file module_dir in
  fs w !! module_dir = None →
  fs w !! lock_file = None →
  fs w !! tmp_dir = None →
  fault_free w →
  download_fn handle tmp_dir
    (<[tmp_dir := Dir []]> (<[lock_file := File lock_contents]> (fs w)))
  = (None, f) →
  f !! tmp_dir = Some (Dir (e :: es)) →
  f !! module_dir = None →
  f !! lock_file = Some (File lock_contents) →
  module_dir ≠ tmp_dir → module_dir ≠ lock_file →
  descriptor ≠ tmp_dir → descriptor ≠ lock_file →
  ∃ wf : World,
    download (S fuel) task_uid handle download_fn module_dir timeout w
    = (Ok module_dir, wf)
    ∧ ∀ (fuel' : nat) (task_uid' handle' : string)
        (download_fn' : DownloadFn) (timeout' : Z),
        ∃ wf' : World,
          download fuel' task_uid' handle' download_fn' module_dir timeout' wf
          = (Ok module_dir, wf')
          ∧ fs wf' = fs wf
          ∧ trace wf'
            = (trace wf ++ [EvExists module_dir; EvListDirectory module_dir])%list.
Proof.
  intros lock_file lock_contents tmp_dir descriptor
    Hmod0 Hlock0 Htmp0 Hfree Hdl Hart Hmod Hlock Hmt Hml Hdt Hdl'.
  destruct (fresh_download_run fuel task_uid handle download_fn module_dir
              timeout w f (Dir (e :: es)))
    as (wf & Hrun & Hpublished & _); try done.
  exists wf. split; [exact Hrun|].
  intros fuel' task_uid' handle' download_fn' timeout'.
  unfold atomic_download. rewrite bind_unfold.
  rewrite (check_module_exists_populated module_dir wf e es Hpublished).
  eexists. split; [reflexivity|]. split; [done|].
  simpl. by rewrite <- app_assoc.
Qed.

(** *** Taking over an abandoned lock *)

Lemma wait_loop_steal (fuel : nat) (handle module_dir : string)
  (timeout : Z) (v : WaitVars) (w : World) (c : string) :
  fs w !! lock_filename module_dir = Some (File c) →
  (clock w - locked_tmp_dir_size_check_time v > timeout)%Z →
  lock_file_content v = Some c →
  locked_tmp_dir_size v
  = observed_size (fs w)
      (temp_download_dir (absolute_path module_dir) (task_uid_of_lock c)) →
  ∃ w' : World,
    wait_loop absolute_path (S fuel) handle (lock_filename module_dir)
      timeout v w = (Ok tt, w')
    ∧ fs w' = delete (lock_filename module_dir) (fs w).
Proof.
  clear hostname pid today.
  intros Hlock Hlate Hcontent Hsize. simpl wait_loop.
  erewrite bind_ok by (by eapply exists_run). cbv iota.
  rewrite bind_unfold.
  rewrite (wait_iteration_check absolute_path handle module_dir timeout v _ c)
    by (simpl; done).
  simpl fs. rewrite <- Hsize, Hcontent, Z.eqb_refl.
  rewrite bool_decide_eq_true_2 by done. simpl andb. cbv iota.
  eexists. split; reflexivity.
Qed.

(** With enough fuel, waiting on a lock file that nobody touches ends
    with the lock file removed. *)
Lemma wait_steal_run (handle module_dir : string) (timeout : Z)
  (n : nat) (w : World) (c : string) :
  fs w !! lock_filename module_dir = Some (File c) →
  ∃ w' : World,
    _wait_for_lock_to_disappear absolute_path
      (Z.to_nat (timeout / 5 + 1) + S (Z.to_nat (timeout / 5) + S n))
      handle (lock_filename module_dir) timeout w = (Ok tt, w')
    ∧ fs w' = delete (lock_filename module_dir) (fs w).
Proof.
  clear hostname pid today.
  intros Hlock.
  set (k1 := Z.to_nat (timeout / 5 + 1)).
  set (k2 := Z.to_nat (timeout / 5)).
  unfold _wait_for_lock_to_disappear.
  erewrite bind_ok by reflexivity.
  destruct (wait_loop_idle absolute_path k1 (S (k2 + S n)) handle module_dir
              timeout (mkWaitVars 0 (clock w) None) w c Hlock)
    as (w1 & -> & Hfs1 & Hclock1).
  { simpl. subst k1. intros Hpos. Z.div_mod_to_equations. lia. }
  simpl wait_loop.
  erewrite bind_ok by (eapply exists_run; by rewrite Hfs1). cbv iota.
  rewrite bind_unfold.
  rewrite (wait_iteration_check absolute_path handle module_dir timeout _ _ c).
  2:{ simpl. by rewrite Hfs1. }
  2:{ simpl. rewrite Hclock1. subst k1. Z.div_mod_to_equations. lia. }
  simpl fs. simpl lock_file_content. simpl locked_tmp_dir_size.
  rewrite bool_decide_eq_false_2 by done. rewrite andb_false_r.
  simpl clock. set (w2 := advance 5 _).
  destruct (wait_loop_idle absolute_path k2 (S n) handle module_dir timeout
              (mkWaitVars
                 (observed_size (fs w1)
                    (temp_download_dir (absolute_path module_dir)
                       (task_uid_of_lock c)))
                 (clock w1) (Some c)) w2 c)
    as (w3 & -> & Hfs3 & Hclock3).
  { subst w2. simpl. by rewrite Hfs1. }
  { subst w2. simpl. subst k2. intros Hpos. Z.div_mod_to_equations. lia. }
  destruct (wait_loop_steal n handle module_dir timeout
              (mkWaitVars
                 (observed_size (fs w1)
                    (temp_download_dir (absolute_path module_dir)
                       (task_uid_of_lock c)))
                 (clock w1) (Some c)) w3 c)
    as (w4 & -> & Hfs4).
  - rewrite Hfs3. subst w2. simpl. by rewrite Hfs1.
  - simpl. rewrite Hclock3. subst w2. simpl. subst k2.
    Z.div_mod_to_equations. lia.
  - reflexivity.
  - simpl. rewrite Hfs3. subst w2. simpl. reflexivity.
  - exists w4. split; [reflexivity|].
    rewrite Hfs4, Hfs3. subst w2. simpl. by rewrite Hfs1.
Qed.

(** A task that finds the lock file of a holder that has gone away (the
    lock is never touched again) takes the lock over and publishes the
    module: with enough fuel [atomic_download] succeeds, the callback's
    directory is at [module_dir], the temporary directory and the lock
    file are gone, and more than twice the timeout has passed. *)
Theorem abandoned_lock_end_to_end
  (task_uid handle : string) (download_fn : DownloadFn)
  (module_dir : string) (timeout : Z)
  (w : World) (f : gmap string node) (artifact : node) (other : string) :
  let lock_file := lock_filename module_dir in
  let lock_contents := lock_file_contents task_uid in
  let tmp_dir := temp_download_dir module_dir task_uid in
  let descriptor := _module_descriptor_file module_dir in
  fs w !! module_dir = None →
  fs w !! lock_file = Some (File other) →
  fs w !! tmp_dir = None →
  fault_free w →
  download_fn handle tmp_dir
    (<[tmp_dir := Dir []]> (<[lock_file := File lock_contents]> (fs w)))
  = (None, f) →
  f !! tmp_dir = Some artifact →
  f !! module_dir = None →
  f !! lock_file = Some (File lock_contents) →
  module_dir ≠ tmp_dir → module_dir ≠ lock_file →
  descriptor ≠ tmp_dir → descriptor ≠ lock_file →
  ∃ (fuel : nat) (wf : World),
    download fuel task_uid handle download_fn module_dir timeout w
    = (Ok module_dir, wf)
    ∧ fs wf !! module_dir = Some artifact
    ∧ fs wf !! tmp_dir = None
    ∧ fs wf !! lock_file = None
    ∧ (clock wf - clock w > 2 * timeout)%Z.
Proof.
  intros lock_file lock_contents tmp_dir descriptor
    Hmod0 Hlock0 Htmp0 Hfree Hdl Hart Hmod Hlock Hmt Hml Hdt Hdl'.
  pose proof (temp_dir_not_lock_file absolute_path module_dir task_uid) as Hne.
  fold lock_file tmp_dir in Hne.
  set (w0 := emit (EvExists module_dir) w).
  assert (Hcheck : check_module_exists module_dir w = (Ok false, w0)).
  { unfold check_module_exists, Exists, mbind, M_bind, bind.
    rewrite Hmod0. by rewrite bool_decide_eq_false_2 by (by intros [? ?]). }
  (* the first attempt finds the lock taken *)
  set (wa := pop_fault (emit (EvWrite lock_file lock_contents false) w0)).
  assert (Hattempt : acquisition_attempt module_dir lock_file lock_contents w0
                     = (Ok None, wa)).
  { unfold acquisition_attempt, atomic_write_string_to_file, try_except.
    rewrite bind_unfold.
    destruct (write_faults w0) as [|[code|] rest] eqn:Hfaults.
    2:{ by destruct (fault_free_head w code rest). }
    all: simpl fs; rewrite Hlock0; simpl.
    all: reflexivity. }
  (* the wait ends with the lock removed *)
  set (fuel := (Z.to_nat (timeout / 5 + 1)
                + S (Z.to_nat (timeout / 5) + S 0))%nat).
  destruct (wait_steal_run handle module_dir timeout 0 wa other)
    as (w2 & Hwait & Hfs2); [done|]. fold lock_file fuel in Hwait, Hfs2.
  pose proof (wait_for_lock_inv absolute_path _ _ _ _ _ _ _ Hwait)
    as (_ & Hfaults2 & [Hsame|(_ & _ & _ & Hlate)]).
  { rewrite Hfs2 in Hsame. apply (f_equal (.!! lock_file)) in Hsame.
    rewrite lookup_delete_eq in Hsame. simpl in Hsame. congruence. }
  assert (Hfree2 : fault_free w2).
  { unfold fault_free. rewrite Hfaults2.
    eapply fault_free_tail; [exact Hfree | done]. }
  (* the second attempt takes the lock *)
  assert (Hfuel : ∃ fuel', fuel = S fuel').
  { exists (Z.to_nat (timeout / 5 + 1) + (Z.to_nat (timeout / 5) + 1))%nat.
    subst fuel. lia. }
  destruct Hfuel as [fuel' Hfuel].
  assert (Hacq :
    acquisition_loop absolute_path (S fuel) handle module_dir lock_file
      lock_contents timeout w0
    = (Ok LockAcquired,
       emit (EvExists module_dir)
         (emit (EvExists module_dir)
            (set_fs (<[lock_file := File lock_contents]> (fs w2))
               (pop_fault
                  (emit (EvWrite lock_file lock_contents false) w2)))))).
  { simpl acquisition_loop. rewrite bind_unfold, Hattempt.
    rewrite bind_unfold, Hwait. rewrite Hfuel.
    apply acquisition_fresh_run; try done.
    - rewrite Hfs2. apply lookup_delete_eq.
    - rewrite Hfs2. by fs_lookup. }
  destruct (publish_after_acquisition (S fuel) task_uid handle download_fn
              module_dir timeout w _ _ f artifact Hcheck Hacq)
    as (wf & Hrun & Hm & Ht & Hl & _ & _ & Hclock); try done.
  - simpl. rewrite Hfs2. by fs_lookup.
  - eapply fault_free_tail; [exact Hfree2 | done].
  - simpl. rewrite Hfs2. simpl. by rewrite insert_delete_eq.
  - exists (S fuel), wf. split; [exact Hrun|].
    repeat split; try done. rewrite Hclock. simpl. simpl in Hlate. lia.
Qed.

End ProtocolExtras.

Section ReporterExtras.

Import DownloadManager.

Variable bytes_to_readable_str : Z -> bool -> string.

Notation log_progress := (_log_progress bytes_to_readable_str).
Notation log_calls_run := (log_progress_calls bytes_to_readable_str).

Lemma length_spaces (n : nat) : String.length (Py.spaces n) = n.
Proof. induction n as [|n IH]; simpl; [done | by rewrite IH]. Qed.

Lemma length_ljust (n : nat) (msg : string) :
  String.length (Py.ljust n msg) = Nat.max n (String.length msg).
Proof. unfold Py.ljust. rewrite length_append, length_spaces. lia. Qed.

Lemma console_lines_app (out1 out2 : list Output) :
  console_lines (out1 ++ out2) = (console_lines out1 ++ console_lines out2)%list.
Proof.
  induction out1 as [|o out1 IH]; [done|].
  destruct o; simpl; by rewrite ?IH.
Qed.

(** One invocation: the byte count is added whatever the mode; the
    width never shrinks; and a line written to the console is one
    character longer than the width afterwards. *)
Lemma log_progress_step (self : t) (c : Call) :
  let self' := (log_progress self c).1 in
  _total_bytes_downloaded self'
  = (_total_bytes_downloaded self + call_bytes c)%Z
  ∧ (_max_prog_str self ≤ _max_prog_str self')%nat
  ∧ Forall (λ line, String.length line = S (_max_prog_str self'))
      (console_lines (log_progress self c).2).
Proof.
  unfold _log_progress, _print_download_progress_msg.
  destruct (Py.truthy (_interactive_mode (call_cfg c))); simpl.
  - split; [done|]. split; [lia|]. repeat constructor.
    rewrite length_append, length_ljust. simpl. lia.
  - destruct (_ >? _)%Z; simpl; by repeat split.
Qed.

Lemma log_progress_calls_total (self : t) (calls : list Call) :
  _total_bytes_downloaded (log_calls_run self calls).1
  = (_total_bytes_downloaded self + total_bytes calls)%Z.
Proof.
  revert self. induction calls as [|c calls IH]; intros self; simpl; [lia|].
  pose proof (log_progress_step self c) as (Htotal & _).
  destruct (log_progress self c) as [self1 out1].
  specialize (IH self1).
  destruct (log_calls_run self1 calls) as [self2 out2].
  simpl in *. rewrite IH, Htotal. unfold total_bytes. simpl. lia.
Qed.

(** The byte counter after any sequence of invocations is the counter
    before plus the sum of the reported byte counts, in either mode and
    whether or not a message was emitted; the url is never changed. *)
Theorem bytes_accumulate (self : t) (calls : list Call) :
  _total_bytes_downloaded (log_calls_run self calls).1
  = (_total_bytes_downloaded self + total_bytes calls)%Z
  ∧ _url (log_calls_run self calls).1 = _url self.
Proof.
  split; [apply log_progress_calls_total | apply log_progress_calls_url].
Qed.

(** The lines written to the console never get shorter: each covers the
    one before it, which is what overwriting in place needs. Every line
    is longer than the width the manager started with. *)
Theorem console_lines_never_shrink (self : t) (calls : list Call) :
  let lines := console_lines (log_calls_run self calls).2 in
  StronglySorted (λ a b, (String.length a ≤ String.length b)%nat) lines
  ∧ Forall (λ line, (_max_prog_str self < String.length line)%nat) lines.
Proof.
  revert self. induction calls as [|c calls IH]; intros self; simpl.
  { split; constructor. }
  pose proof (log_progress_step self c) as (_ & Hwidth & Hline).
  destruct (log_progress self c) as [self1 out1].
  specialize (IH self1).
  destruct (log_calls_run self1 calls) as [self2 out2].
  simpl in *. destruct IH as [Hsorted Hlong].
  rewrite console_lines_app.
  assert (Hlater : Forall (λ line, (_max_prog_str self1 < String.length line)%nat)
                     (console_lines out2)) by done.
  split.
  - induction Hline as [|line lines Hlen Hlines IHlines]; [done|].
    simpl. constructor; [done|].
    apply Forall_app. split.
    + eapply Forall_impl; [exact Hlines|]. simpl. intros; lia.
    + eapply Forall_impl; [exact Hlater|]. simpl. intros; lia.
  - apply Forall_app. split.
    + eapply Forall_impl; [exact Hline|]. simpl. intros; lia.
    + eapply Forall_impl; [exact Hlater|]. simpl. intros; lia.
Qed.

(** With interactive progress off nothing is written to the console and
    the width is left alone; while no more than 15 seconds have passed
    since the manager was created, nothing is emitted at all, yet the
    bytes are counted. *)
Theorem quiet_mode_output (self : t) (calls : list Call) :
  Forall quiet calls →
  existsb is_console (log_calls_run self calls).2 = false
  ∧ _max_prog_str (log_calls_run self calls).1 = _max_prog_str self
  ∧ (Forall (λ c, (call_now c ≤ _last_progress_msg_print_time self + 15)%Z)
       calls →
     (log_calls_run self calls).2 = []
     ∧ _total_bytes_downloaded (log_calls_run self calls).1
       = (_total_bytes_downloaded self + total_bytes calls)%Z).
Proof.
  intros Hquiet.
  assert (Hmain :
    existsb is_console (log_calls_run self calls).2 = false
    ∧ _max_prog_str (log_calls_run self calls).1 = _max_prog_str self
    ∧ (Forall (λ c, (call_now c ≤ _last_progress_msg_print_time self + 15)%Z)
         calls →
       (log_calls_run self calls).2 = [])).
  { revert self. induction Hquiet as [|c calls Hc Hcalls IH]; intros self; simpl.
    { done. }
    rewrite (log_progress_quiet bytes_to_readable_str self c Hc).
    destruct (_ >? _)%Z eqn:Hgt.
    - specialize (IH (mk (_url self) (call_now c)
                        (_total_bytes_downloaded self + call_bytes c)
                        (_max_prog_str self))).
      destruct (log_calls_run _ calls) as [self2 out2].
      simpl in *. destruct IH as (Hconsole & Hw & _).
      split; [done|]. split; [done|]. intros Hearly.
      inversion Hearly as [|? ? Hnow _]; subst.
      apply Z.gtb_lt in Hgt. lia.
    - specialize (IH (mk (_url self) (_last_progress_msg_print_time self)
                        (_total_bytes_downloaded self + call_bytes c)
                        (_max_prog_str self))).
      destruct (log_calls_run _ calls) as [self2 out2].
      simpl in *. destruct IH as (Hconsole & Hw & Hnone).
      split; [done|]. split; [done|]. intros Hearly.
      inversion Hearly as [|? ? _ Hrest]; subst. by apply Hnone. }
  destruct Hmain as (Hconsole & Hwidth & Hnone).
  split; [done|]. split; [done|]. intros Hearly.
  split; [by apply Hnone | apply log_progress_calls_total].
Qed.

(** An error of the extraction other than a tar read error is raised
    unchanged, after the progress output and without a summary; on
    completion in quiet mode the summary reports the sum of all the byte
    counts. *)
Theorem download_and_uncompress_outcomes (self : t) (x : Extraction) :
  (∀ e : Exn,
     outcome x = Some e → e ≠ TarReadError →
     ∃ self' : t,
       download_and_uncompress bytes_to_readable_str self x
       = (Raise e, self', (log_calls_run self (log_calls x)).2))
  ∧ (outcome x = None →
     Py.truthy (_interactive_mode (end_cfg x)) = false →
     ∃ self' : t,
       download_and_uncompress bytes_to_readable_str self x
       = (Ok tt, self',
          ((log_calls_run self (log_calls x)).2 ++
           [LoggingInfo
              ("Downloaded " +:+ _url self +:+ ", Total size: " +:+
               bytes_to_readable_str
                 (_total_bytes_downloaded self + total_bytes (log_calls x))
                 true)])%list)).
Proof.
  pose proof (log_progress_calls_total self (log_calls x)) as Htotal.
  pose proof (log_progress_calls_url bytes_to_readable_str self (log_calls x))
    as Hurl.
  unfold download_and_uncompress.
  destruct (log_calls_run self (log_calls x)) as [self1 out1].
  simpl in Htotal, Hurl. split.
  - intros e -> He. exists self1. by destruct e.
  - intros -> Hquiet. exists self1.
    unfold _print_download_progress_msg. rewrite Hquiet.
    by rewrite Htotal, Hurl.
Qed.

End ReporterExtras.

(** ** Configuration and resolvers *)

Lemma truthy_append_r (a b : string) :
  Py.truthy b = true → Py.truthy (a +:+ b) = true.
Proof. intros Hb. destruct a; [done|]. by rewrite append_cons. Qed.

Lemma path_join_truthy (a b : string) :
  Py.truthy b = true → Py.truthy (Py.path_join a b) = true.
Proof.
  intros Hb. unfold Py.path_join.
  destruct (Py.startswith b "/"); [done|].
  destruct (negb (Py.truthy a) || Py.endswith a "/").
  - by apply truthy_append_r.
  - apply truthy_append_r. by apply truthy_append_r.
Qed.

(** [tfhub_cache_dir] yields no cache directory exactly when the
    environment variable, the flag and the default are all unset and
    [use_temp] is off; with [use_temp] on it always yields one. *)
Theorem tfhub_cache_dir_unset_iff
  (cfg : Config) (default_cache_dir : option string) (use_temp : bool) :
  Py.truthy_opt (tfhub_cache_dir cfg default_cache_dir use_temp) = false
  ↔ Py.truthy (getenv cfg "TFHUB_CACHE_DIR") = false
    ∧ Py.truthy_opt (flag_value cfg "tfhub_cache_dir") = false
    ∧ Py.truthy_opt default_cache_dir = false
    ∧ use_temp = false.
Proof.
  pose proof (path_join_truthy (gettempdir cfg) "tfhub_modules" eq_refl)
    as Htmp.
  unfold tfhub_cache_dir, get_env_setting, Py.or_, _TFHUB_CACHE_DIR.
  destruct (getenv cfg "TFHUB_CACHE_DIR") as [|c e];
    destruct (flag_value cfg "tfhub_cache_dir") as [[|c' f]|];
    destruct default_cache_dir as [[|c'' d]|];
    destruct use_temp; simpl; rewrite ?Htmp; intuition congruence.
Qed.

(** [is_http_protocol] accepts exactly the handles that begin with
    [http://] or [https://], in lower case. *)
Theorem is_http_protocol_iff (handle : string) :
  is_http_protocol handle = true
  ↔ ∃ rest : string,
      handle = "http://" +:+ rest ∨ handle = "https://" +:+ rest.
Proof.
  unfold is_http_protocol, Py.startswith.
  rewrite orb_true_iff, !prefix_append. split.
  - intros [[rest Hrest]|[rest Hrest]]; exists rest; auto.
  - intros [rest [Hrest|Hrest]]; [left | right]; by exists rest.
Qed.

(** Certificate validation is switched off exactly when
    TFHUB_DISABLE_CERT_VALIDATION is the string [true]: then host name
    checking and certificate verification are both off and a warning is
    logged; for any other value, or none, the context is left as it
    is. *)
Theorem cert_validation_disabled_iff (cfg : Config) (context : SSLContext) :
  (environ cfg !! _TFHUB_DISABLE_CERT_VALIDATION = Some "true" →
   _maybe_disable_cert_validation cfg context
   = (mkSSLContext false CERT_NONE, true))
  ∧ (environ cfg !! _TFHUB_DISABLE_CERT_VALIDATION ≠ Some "true" →
     _maybe_disable_cert_validation cfg context = (context, false))
  ∧ (check_hostname (HttpResolverBase_init cfg) = false
     ↔ environ cfg !! _TFHUB_DISABLE_CERT_VALIDATION = Some "true").
Proof.
  unfold HttpResolverBase_init, _maybe_disable_cert_validation, getenv_opt,
    _TFHUB_DISABLE_CERT_VALIDATION_VALUE.
  destruct (environ cfg !! _TFHUB_DISABLE_CERT_VALIDATION) as [v|].
  - destruct (String.eqb_spec v "true") as [->|Hne]; simpl.
    + repeat split; done.
    + repeat split; try done; intros; congruence.
  - simpl. repeat split; done.
Qed.

Lemma startswith_refl (s : string) : Py.startswith s s = true.
Proof.
  unfold Py.startswith. induction s as [|c s IH]; simpl; [done|].
  by destruct (Ascii.ascii_dec c c).
Qed.

(** [create_local_module_dir] touches no path other than the cache
    directory and the paths it starts with (its ancestors, which
    [MakeDirs] may create and the flat namespace does not record); when
    it returns, the cache directory is a directory and the result is the
    joined path; a cache directory that is already a directory is left
    exactly as it is, so a second call changes nothing; a file in its
    place makes the call fail and is left alone. *)
Theorem create_local_module_dir_effect
  (cache_dir module_name : string) (w w' : World) (r : Res string) :
  create_local_module_dir cache_dir module_name w = (r, w') →
  (∀ path : string,
     Py.startswith cache_dir path = false → fs w' !! path = fs w !! path)
  ∧ (∀ p : string,
       r = Ok p →
       p = Py.path_join cache_dir module_name
       ∧ ∃ entries, fs w' !! cache_dir = Some (Dir entries))
  ∧ (is_Some (fs w !! cache_dir) → fs w' = fs w)
  ∧ (∀ content : string,
       fs w !! cache_dir = Some (File content) →
       r = Raise (OpError FailedPrecondition)).
Proof.
  unfold create_local_module_dir, MakeDirs, mbind, M_bind, bind, ret.
  destruct (fs w !! cache_dir) as [[content|entries]|] eqn:Hcache;
    simpl; intros [= <- <-]; simpl.
  - repeat split; try done; intros; by simplify_eq.
  - repeat split; try done; intros; simplify_eq; by eauto.
  - split.
    { intros path Hpath. rewrite lookup_insert_ne; [done|].
      intros ->. by rewrite startswith_refl in Hpath. }
    split; [|split; [by intros [? ?] | done]].
    intros p [= <-]. split; [done|]. eexists. by rewrite lookup_insert_eq.
Qed.

(** [PathResolver] supports every handle, and resolving one only looks
    at the namespace: a handle that names a file or a directory is
    returned as it is, any other handle raises the [IOError] that names
    it, and in both cases the namespace and the clock are as before. *)
Theorem path_resolver_outcomes (handle : string) (w : World) :
  PathResolver_is_supported handle = true
  ∧ fs (PathResolver_call handle w).2 = fs w
  ∧ clock (PathResolver_call handle w).2 = clock w
  ∧ (is_Some (fs w !! handle) → (PathResolver_call handle w).1 = Ok handle)
  ∧ (fs w !! handle = None →
     (PathResolver_call handle w).1
     = Raise (IOError (handle +:+ " does not exist."))).
Proof.
  unfold PathResolver_call, Exists, mbind, M_bind, bind. simpl.
  split; [done|]. case_bool_decide as Hpresent; simpl.
  - split; [done|]. split; [done|]. split; [done|].
    intros Hnone. rewrite Hnone in Hpresent. by destruct Hpresent.
  - split; [done|]. split; [done|]. split; [|done].
    intros Hsome. by destruct Hpresent.
Qed.

(** ** The theorems at concrete inputs *)

Lemma cached_module_fast_path_witness :
  atomic_download Ex.absolute_path Ex.hostname Ex.pid Ex.today
    0 Ex.uid Ex.handle Ex.download_ok Ex.module_dir 600 Ex.cached_world
  = (Ok Ex.module_dir,
     emit (EvListDirectory Ex.module_dir)
       (emit (EvExists Ex.module_dir) Ex.cached_world)).
Proof.
  apply (cached_module_fast_path Ex.absolute_path Ex.hostname Ex.pid Ex.today
           0 Ex.uid Ex.handle Ex.download_ok Ex.module_dir 600 Ex.cached_world
           ("saved_model.pb", File "model") []).
  vm_compute. reflexivity.
Defined.

Lemma failed_download_cleanup_witness :
  ∃ wf : World,
    atomic_download Ex.absolute_path Ex.hostname Ex.pid Ex.today
      1 Ex.uid Ex.handle Ex.download_fails Ex.module_dir 600 Ex.empty_world
    = (Raise (IOError "connection reset"), wf)
    ∧ fs wf !! _temp_download_dir Ex.absolute_path Ex.module_dir Ex.uid = None
    ∧ fs wf !! _lock_filename Ex.absolute_path Ex.module_dir = None
    ∧ fs wf !! Ex.module_dir = None.
Proof.
  edestruct (failed_download_cleanup Ex.absolute_path Ex.hostname Ex.pid
               Ex.today 1 Ex.uid Ex.handle Ex.download_fails Ex.module_dir
               600 Ex.empty_world)
    as (wf & Hrun & Htmp & Hfs & Hlock & Htr & Hstart & Hend).
  - reflexivity.
  - reflexivity.
  - vm_compute. reflexivity.
  - reflexivity.
  - intros entries. vm_compute. discriminate.
  - exists wf. split; [exact Hrun|]. split; [exact Htmp|].
    split; [|apply Hend; vm_compute; reflexivity].
    rewrite Hlock. vm_compute. reflexivity.
Defined.

Lemma stale_lock_is_stolen_witness :
  (∃ w' : World,
     wait_loop Ex.absolute_path 1 Ex.handle
       (_lock_filename Ex.absolute_path Ex.module_dir) 20
       (mkWaitVars 0 70 (Some "gone.example.17.7d793037a0760186"))
       Ex.abandoned_world = (Ok tt, w')
     ∧ fs w' = delete (_lock_filename Ex.absolute_path Ex.module_dir)
                 (fs Ex.abandoned_world)
     ∧ EvRemove (_lock_filename Ex.absolute_path Ex.module_dir) ∈ trace w'
     ∧ clock w' = 105)
  ∧ (∃ (fuel : nat) (w' : World),
       _wait_for_lock_to_disappear Ex.absolute_path fuel Ex.handle
         (_lock_filename Ex.absolute_path Ex.module_dir) 20 Ex.abandoned_world
       = (Ok tt, w')
       ∧ fs w' = delete (_lock_filename Ex.absolute_path Ex.module_dir)
                   (fs Ex.abandoned_world)
       ∧ EvRemove (_lock_filename Ex.absolute_path Ex.module_dir) ∈ trace w'
       ∧ (clock w' - clock Ex.abandoned_world > 2 * 20)%Z).
Proof.
  destruct (stale_lock_is_stolen Ex.absolute_path Ex.handle Ex.module_dir 20)
    as [Hstep Hrun].
  split.
  - apply (Hstep 0%nat _ Ex.abandoned_world "gone.example.17.7d793037a0760186").
    + vm_compute. reflexivity.
    + vm_compute. reflexivity.
    + reflexivity.
    + vm_compute. reflexivity.
  - apply (Hrun Ex.abandoned_world "gone.example.17.7d793037a0760186").
    vm_compute. reflexivity.
Defined.

Lemma successful_download_single_rename_witness :
  (∃ (wf : World) (evs : list Event),
     atomic_download Ex.absolute_path Ex.hostname Ex.pid Ex.today
       1 Ex.uid Ex.handle Ex.download_ok Ex.module_dir 600 Ex.empty_world
     = (Ok Ex.module_dir, wf)
     ∧ trace wf = evs
     ∧ filter (λ e, is_rename e = true) evs
       = [EvRename (_temp_download_dir Ex.absolute_path Ex.module_dir Ex.uid)
                   Ex.module_dir]
     ∧ fs wf !! Ex.module_dir = Some Ex.artifact)
  ∧ (∃ (wf : World) (evs : list Event),
       atomic_download Ex.absolute_path Ex.hostname Ex.pid Ex.today
         1 Ex.uid Ex.handle Ex.download_raced Ex.module_dir 600 Ex.empty_world
       = (Ok Ex.module_dir, wf)
       ∧ trace wf = evs
       ∧ filter (λ e, is_rename e = true) evs
         = [EvRename (_temp_download_dir Ex.absolute_path Ex.module_dir Ex.uid)
                     Ex.module_dir]
       ∧ fs wf !! _temp_download_dir Ex.absolute_path Ex.module_dir Ex.uid
         = None
       ∧ fs wf !! Ex.module_dir = Some (Dir [("theirs", File "x")])).
Proof.
  split.
  - edestruct (successful_download_single_rename Ex.absolute_path Ex.hostname
                 Ex.pid Ex.today 1 Ex.uid Ex.handle Ex.download_ok
                 Ex.module_dir 600 Ex.empty_world)
      as (wf & evs & Hrun & Htr & Hren & Htmp & Hmod & Hwarn).
    + reflexivity.
    + reflexivity.
    + vm_compute. reflexivity.
    + reflexivity.
    + vm_compute. eexists. reflexivity.
    + intros entries. vm_compute. discriminate.
    + intros code rest. vm_compute. discriminate.
    + apply String.eqb_neq. vm_compute. reflexivity.
    + apply String.eqb_neq. vm_compute. reflexivity.
    + apply String.eqb_neq. vm_compute. reflexivity.
    + apply String.eqb_neq. vm_compute. reflexivity.
    + exists wf, evs. split; [exact Hrun|]. split; [exact Htr|].
      split; [exact Hren|]. rewrite Hmod. vm_compute. reflexivity.
  - edestruct (successful_download_single_rename Ex.absolute_path Ex.hostname
                 Ex.pid Ex.today 1 Ex.uid Ex.handle Ex.download_raced
                 Ex.module_dir 600 Ex.empty_world)
      as (wf & evs & Hrun & Htr & Hren & Htmp & Hmod & Hwarn).
    + reflexivity.
    + reflexivity.
    + vm_compute. reflexivity.
    + reflexivity.
    + vm_compute. eexists. reflexivity.
    + intros entries. vm_compute. discriminate.
    + intros code rest. vm_compute. discriminate.
    + apply String.eqb_neq. vm_compute. reflexivity.
    + apply String.eqb_neq. vm_compute. reflexivity.
    + apply String.eqb_neq. vm_compute. reflexivity.
    + apply String.eqb_neq. vm_compute. reflexivity.
    + exists wf, evs. split; [exact Hrun|]. split; [exact Htr|].
      split; [exact Hren|]. split; [exact Htmp|].
      rewrite Hmod. vm_compute. reflexivity.
Defined.

Lemma lock_creation_failure_witness :
  acquisition_loop Ex.absolute_path 1 Ex.handle Ex.module_dir
    (_lock_filename Ex.absolute_path Ex.module_dir)
    (_lock_file_contents Ex.hostname Ex.pid Ex.uid) 600
    (Ex.faulty_world PermissionDenied)
  = (Raise (OpError PermissionDenied),
     pop_fault
       (emit (EvWrite (_lock_filename Ex.absolute_path Ex.module_dir)
                (_lock_file_contents Ex.hostname Ex.pid Ex.uid) false)
          (Ex.faulty_world PermissionDenied)))
  ∧ (∃ wf : World,
       atomic_download Ex.absolute_path Ex.hostname Ex.pid Ex.today
         1 Ex.uid Ex.handle Ex.download_ok Ex.module_dir 600
         (Ex.faulty_world PermissionDenied)
       = (Raise (OpError PermissionDenied), wf)
       ∧ clock wf = clock (Ex.faulty_world PermissionDenied))
  ∧ acquisition_loop Ex.absolute_path 2 Ex.handle Ex.module_dir
      (_lock_filename Ex.absolute_path Ex.module_dir)
      (_lock_file_contents Ex.hostname Ex.pid Ex.uid) 600
      (Ex.faulty_world Unavailable)
    = (Ok LockAcquired,
       set_fs {[ _lock_filename Ex.absolute_path Ex.module_dir
                 := File (_lock_file_contents Ex.hostname Ex.pid Ex.uid) ]}
         (mkWorld ∅ 100 []
            [EvWrite (_lock_filename Ex.absolute_path Ex.module_dir)
               (_lock_file_contents Ex.hostname Ex.pid Ex.uid) false;
             EvExists (_lock_filename Ex.absolute_path Ex.module_dir);
             EvWrite (_lock_filename Ex.absolute_path Ex.module_dir)
               (_lock_file_contents Ex.hostname Ex.pid Ex.uid) false;
             EvExists Ex.module_dir; EvExists Ex.module_dir])).
Proof.
  split; [|split].
  - apply (proj1 (lock_creation_failure Ex.absolute_path Ex.hostname Ex.pid
                    Ex.today 0 Ex.uid Ex.handle Ex.download_ok Ex.module_dir
                    600 PermissionDenied [])).
    + reflexivity.
    + repeat constructor.
  - edestruct (proj1 (proj2 (lock_creation_failure Ex.absolute_path
                 Ex.hostname Ex.pid Ex.today 0 Ex.uid Ex.handle
                 Ex.download_ok Ex.module_dir 600 PermissionDenied []))
               (Ex.faulty_world PermissionDenied))
      as (wf & Hrun & Htr & Hclock).
    + reflexivity.
    + reflexivity.
    + repeat constructor.
    + intros entries. vm_compute. discriminate.
    + exists wf. split; [exact Hrun | exact Hclock].
  - rewrite (proj2 (proj2 (lock_creation_failure Ex.absolute_path Ex.hostname
               Ex.pid Ex.today 1 Ex.uid Ex.handle Ex.download_ok Ex.module_dir
               600 Unavailable [])) (Ex.faulty_world Unavailable)).
    + vm_compute. reflexivity.
    + reflexivity.
    + rewrite !elem_of_cons, elem_of_nil. intuition discriminate.
Defined.

Lemma lock_record_round_trip_witness :
  _lock_file_contents Ex.hostname Ex.pid Ex.uid
  = "worker.example.4242.5d41402abc4b2a76"
  ∧ task_uid_of_lock (_lock_file_contents Ex.hostname Ex.pid Ex.uid) = Ex.uid
  ∧ task_uid_of_lock "10.0.0.7.4242.5d41402abc4b2a76" = Ex.uid.
Proof.
  destruct (lock_record_round_trip Ex.hostname Ex.pid Ex.uid)
    as (Htext & Henc & Hgen & _).
  - vm_compute. reflexivity.
  - split; [rewrite Htext; vm_compute; reflexivity|].
    split; [exact Henc | exact (Hgen "10.0.0.7.4242")].
Defined.

Lemma persisted_paths_witness :
  _temp_download_dir Ex.absolute_path Ex.module_dir Ex.uid
  ≠ _temp_download_dir Ex.absolute_path Ex.module_dir Ex.other_uid.
Proof.
  apply (persisted_paths Ex.absolute_path Ex.module_dir Ex.uid).
  apply String.eqb_neq. vm_compute. reflexivity.
Defined.

Lemma tfhub_cache_dir_precedence_witness :
  tfhub_cache_dir Ex.env_cfg (Some "/default/hub") true = Some "/data/hub"
  ∧ Py.truthy_opt (tfhub_cache_dir Ex.quiet_cfg None false) = false.
Proof.
  split.
  - rewrite (proj1 (tfhub_cache_dir_precedence Ex.env_cfg
                      (Some "/default/hub") true)).
    vm_compute. reflexivity.
  - apply (proj2 (tfhub_cache_dir_precedence Ex.quiet_cfg None false));
      vm_compute; reflexivity.
Defined.


Lemma invalid_archive_raises_IOError_witness :
  ∃ self' : DownloadManager.t,
    DownloadManager.download_and_uncompress Ex.bytes_to_readable_str
      Ex.manager Ex.bad_archive
    = (Raise (IOError (Ex.handle +:+ " does not appear to be a valid module.")),
       self', []).
Proof.
  destruct (invalid_archive_raises_IOError Ex.bytes_to_readable_str Ex.manager
              Ex.bad_archive) as (self' & e & Hrun & -> & _).
  - reflexivity.
  - exists self'. exact Hrun.
Defined.

(** C6, as stated, fails: for a stream that is not a tar archive the
    error raised is an [IOError], not an error of a class of its own. *)
Lemma invalid_archive_error_kind_counterexample :
  ¬ (DownloadManager.outcome Ex.bad_archive = Some TarReadError →
     ∃ e : Exn,
       (DownloadManager.download_and_uncompress Ex.bytes_to_readable_str
          Ex.manager Ex.bad_archive).1.1 = Raise e
       ∧ exn_class e ≠ ClsIOError).
Proof.
  intros Hclaim. destruct (Hclaim eq_refl) as (e & Hrun & Hkind).
  vm_compute in Hrun. injection Hrun as <-. by apply Hkind.
Qed.

(** ** The further properties at concrete inputs *)

Lemma module_dir_inverts_lock_filename_witness :
  _module_dir "/cache/m.lck" Ex.empty_world
  = (Raise (ValueError "Lock file name (/cache/m.lck) has to end with .lock."),
     Ex.empty_world).
Proof.
  apply (proj2 (module_dir_inverts_lock_filename Ex.absolute_path
                  Ex.empty_world) "/cache/m.lck").
  vm_compute. reflexivity.
Defined.

Lemma task_uid_of_lock_has_no_dot_witness :
  task_uid_of_lock "no-dots-at-all" = "no-dots-at-all".
Proof.
  apply (proj2 (task_uid_of_lock_has_no_dot "no-dots-at-all")).
  vm_compute. reflexivity.
Defined.

Lemma monitor_measures_holder_tmp_dir_witness :
  (_locked_tmp_dir_size Ex.absolute_path
     (_lock_filename Ex.absolute_path Ex.module_dir) Ex.held_world).1
  = Ok 2
  ∧ (_locked_tmp_dir_size Ex.absolute_path
       (_lock_filename Ex.absolute_path Ex.module_dir)
       (set_fs {[ "/cache/m.lock"
                  := File "worker.example.4242.7d793037a0760186" ]}
          Ex.held_world)).1
    = Ok 0.
Proof.
  split.
  - destruct (monitor_measures_holder_tmp_dir Ex.absolute_path
                Ex.hostname Ex.pid Ex.module_dir Ex.other_uid Ex.held_world)
      as [Hsize _].
    + reflexivity.
    + vm_compute. reflexivity.
    + vm_compute. reflexivity.
    + rewrite Hsize. vm_compute. reflexivity.
  - destruct (monitor_measures_holder_tmp_dir Ex.absolute_path
                Ex.hostname Ex.pid Ex.module_dir Ex.other_uid
                (set_fs {[ "/cache/m.lock"
                           := File "worker.example.4242.7d793037a0760186" ]}
                   Ex.held_world))
      as [_ Hmissing].
    + reflexivity.
    + vm_compute. reflexivity.
    + vm_compute. reflexivity.
    + apply Hmissing. vm_compute. reflexivity.
Defined.

Lemma locked_tmp_dir_size_errors_witness :
  (_locked_tmp_dir_size Ex.absolute_path "/cache/m.lock" Ex.empty_world).1
  = Raise (OpError NotFound)
  ∧ (_locked_tmp_dir_size Ex.absolute_path "/cache/m.lck"
       (set_fs {[ "/cache/m.lck" := File "a.1.b" ]} Ex.empty_world)).1
    = Raise (ValueError "Lock file name (/cache/m.lck) has to end with .lock.").
Proof.
  split.
  - apply (proj1 (locked_tmp_dir_size_errors Ex.absolute_path "/cache/m.lock"
                    Ex.empty_world)).
    vm_compute. reflexivity.
  - apply (proj2 (locked_tmp_dir_size_errors Ex.absolute_path "/cache/m.lck"
                    (set_fs {[ "/cache/m.lck" := File "a.1.b" ]}
                       Ex.empty_world)) "a.1.b").
    + vm_compute. reflexivity.
    + vm_compute. reflexivity.
Defined.

Lemma lock_removed_only_when_stale_witness :
  ∃ (r : Res (LoopCtl WaitVars)) (w' : World),
    wait_iteration Ex.absolute_path Ex.handle "/cache/m.lock" 20
      (mkWaitVars 0 70 (Some "gone.example.17.7d793037a0760186"))
      Ex.abandoned_world = (r, w')
    ∧ clock w' = 105
    ∧ r = Ok Break
    ∧ fs w' = delete "/cache/m.lock" (fs Ex.abandoned_world).
Proof.
  eexists _, _. split; [vm_compute; reflexivity|].
  edestruct (lock_removed_only_when_stale Ex.absolute_path Ex.handle
               "/cache/m.lock" 20
               (mkWaitVars 0 70 (Some "gone.example.17.7d793037a0760186"))
               Ex.abandoned_world)
    as (Hclock & Hsteal); [vm_compute; reflexivity|].
  split; [exact Hclock|].
  destruct Hsteal as (Hr & Hfs & _); [|by split].
  intros Heq. apply (f_equal (.!! "/cache/m.lock")) in Heq.
  vm_compute in Heq. discriminate.
Defined.

Lemma wait_only_removes_lock_witness :
  ∃ (r : Res unit) (w' : World),
    _wait_for_lock_to_disappear Ex.absolute_path 11 Ex.handle "/cache/m.lock"
      20 Ex.held_world = (r, w')
    ∧ fs w' !! "/cache/m.7d793037a0760186.tmp"
      = Some (Dir [("part", File "mo")])
    ∧ write_faults w' = [].
Proof.
  eexists _, _. split; [vm_compute; reflexivity|].
  edestruct (wait_only_removes_lock Ex.absolute_path 11 Ex.handle
               "/cache/m.lock" 20 Ex.held_world)
    as (Hfaults & _ & _ & Hframe); [vm_compute; reflexivity|].
  split; [|exact Hfaults].
  rewrite Hframe; [vm_compute; reflexivity|].
  apply String.eqb_neq. vm_compute. reflexivity.
Defined.

Lemma wait_never_steals_early_witness :
  ∃ (r : Res unit) (w' : World),
    _wait_for_lock_to_disappear Ex.absolute_path 11 Ex.handle "/cache/m.lock"
      20 Ex.abandoned_world = (r, w')
    ∧ r = Ok tt
    ∧ (clock w' - clock Ex.abandoned_world > 2 * 20)%Z.
Proof.
  eexists _, _. split; [vm_compute; reflexivity|].
  apply (wait_never_steals_early Ex.absolute_path 11 Ex.handle
           "/cache/m.lock" 20 Ex.abandoned_world).
  - vm_compute. reflexivity.
  - vm_compute. eexists. reflexivity.
  - vm_compute. reflexivity.
Defined.

Lemma existing_lock_blocks_attempt_witness :
  ∃ (r : Res (option Acquisition)) (w' : World),
    acquisition_attempt Ex.module_dir "/cache/m.lock"
      (_lock_file_contents Ex.hostname Ex.pid Ex.uid) Ex.abandoned_world
    = (r, w')
    ∧ fs w' = fs Ex.abandoned_world
    ∧ clock w' = clock Ex.abandoned_world.
Proof.
  eexists _, _. split; [vm_compute; reflexivity|].
  edestruct (existing_lock_blocks_attempt Ex.module_dir "/cache/m.lock"
               (_lock_file_contents Ex.hostname Ex.pid Ex.uid)
               Ex.abandoned_world)
    as (Hfs & Hclock & _).
  - vm_compute. eexists. reflexivity.
  - vm_compute. reflexivity.
  - split; [exact Hfs | exact Hclock].
Defined.

Lemma acquired_lock_is_held_witness :
  ∃ w' : World,
    acquisition_loop Ex.absolute_path 12 Ex.handle Ex.module_dir
      "/cache/m.lock" (_lock_file_contents Ex.hostname Ex.pid Ex.uid) 20
      Ex.abandoned_world = (Ok LockAcquired, w')
    ∧ fs w' !! "/cache/m.lock"
      = Some (File (_lock_file_contents Ex.hostname Ex.pid Ex.uid))
    ∧ fs w' !! Ex.module_dir = None.
Proof.
  eexists. split; [vm_compute; reflexivity|].
  eapply (acquired_lock_is_held Ex.absolute_path 12 Ex.handle Ex.module_dir
            "/cache/m.lock" (_lock_file_contents Ex.hostname Ex.pid Ex.uid) 20
            Ex.abandoned_world _ LockAcquired).
  - apply String.eqb_neq. vm_compute. reflexivity.
  - vm_compute. reflexivity.
Defined.

Lemma acquisition_touches_two_paths_witness :
  ∃ (r : Res Acquisition) (w' : World),
    acquisition_loop Ex.absolute_path 12 Ex.handle Ex.module_dir
      "/cache/m.lock" (_lock_file_contents Ex.hostname Ex.pid Ex.uid) 20
      Ex.held_world = (r, w')
    ∧ fs w' !! "/cache/m.7d793037a0760186.tmp"
      = Some (Dir [("part", File "mo")]).
Proof.
  eexists _, _. split; [vm_compute; reflexivity|].
  edestruct (acquisition_touches_two_paths Ex.absolute_path 12 Ex.handle
               Ex.module_dir "/cache/m.lock"
               (_lock_file_contents Ex.hostname Ex.pid Ex.uid) 20
               Ex.held_world)
    as (_ & Hframe); [vm_compute; reflexivity|].
  rewrite Hframe; [vm_compute; reflexivity | |].
  - apply String.eqb_neq. vm_compute. reflexivity.
  - apply String.eqb_neq. vm_compute. reflexivity.
Defined.

Lemma transient_fault_retried_at_once_witness :
  acquisition_loop Ex.absolute_path 2 Ex.handle Ex.module_dir
    "/cache/m.lock" (_lock_file_contents Ex.hostname Ex.pid Ex.uid) 600
    (Ex.faulty_world Unavailable)
  = acquisition_loop Ex.absolute_path 1 Ex.handle Ex.module_dir
      "/cache/m.lock" (_lock_file_contents Ex.hostname Ex.pid Ex.uid) 600
      (emit (EvExists "/cache/m.lock")
         (pop_fault
            (emit (EvWrite "/cache/m.lock"
                     (_lock_file_contents Ex.hostname Ex.pid Ex.uid) false)
               (Ex.faulty_world Unavailable)))).
Proof.
  apply (transient_fault_retried_at_once Ex.absolute_path 0 Ex.handle
           Ex.module_dir "/cache/m.lock"
           (_lock_file_contents Ex.hostname Ex.pid Ex.uid) 600
           (Ex.faulty_world Unavailable) Unavailable []).
  - reflexivity.
  - reflexivity.
  - vm_compute. reflexivity.
Defined.

Lemma fresh_download_end_to_end_witness :
  ∃ wf : World,
    atomic_download Ex.absolute_path Ex.hostname Ex.pid Ex.today
      1 Ex.uid Ex.handle Ex.download_ok Ex.module_dir 600 Ex.empty_world
    = (Ok Ex.module_dir, wf)
    ∧ fs wf !! Ex.module_dir = Some Ex.artifact
    ∧ fs wf !! _temp_download_dir Ex.absolute_path Ex.module_dir Ex.uid = None
    ∧ fs wf !! _lock_filename Ex.absolute_path Ex.module_dir = None
    ∧ clock wf = clock Ex.empty_world.
Proof.
  edestruct (fresh_download_end_to_end Ex.absolute_path Ex.hostname Ex.pid
               Ex.today 0 Ex.uid Ex.handle Ex.download_ok Ex.module_dir 600
               Ex.empty_world)
    as (wf & Hrun & Hmod & Htmp & Hlock & _ & _ & Hclock).
  - vm_compute. reflexivity.
  - vm_compute. reflexivity.
  - vm_compute. reflexivity.
  - constructor.
  - reflexivity.
  - vm_compute. reflexivity.
  - vm_compute. reflexivity.
  - vm_compute. reflexivity.
  - apply String.eqb_neq. vm_compute. reflexivity.
  - apply String.eqb_neq. vm_compute. reflexivity.
  - apply String.eqb_neq. vm_compute. reflexivity.
  - apply String.eqb_neq. vm_compute. reflexivity.
  - exists wf. auto.
Defined.

Lemma abandoned_lock_end_to_end_witness :
  ∃ (fuel : nat) (wf : World),
    atomic_download Ex.absolute_path Ex.hostname Ex.pid Ex.today
      fuel Ex.uid Ex.handle Ex.download_ok Ex.module_dir 20 Ex.abandoned_world
    = (Ok Ex.module_dir, wf)
    ∧ fs wf !! Ex.module_dir = Some Ex.artifact
    ∧ fs wf !! _lock_filename Ex.absolute_path Ex.module_dir = None
    ∧ (clock wf - clock Ex.abandoned_world > 2 * 20)%Z.
Proof.
  edestruct (abandoned_lock_end_to_end Ex.absolute_path Ex.hostname Ex.pid
               Ex.today Ex.uid Ex.handle Ex.download_ok Ex.module_dir 20
               Ex.abandoned_world)
    as (fuel & wf & Hrun & Hmod & Htmp & Hlock & Hclock).
  - vm_compute. reflexivity.
  - vm_compute. reflexivity.
  - vm_compute. reflexivity.
  - constructor.
  - reflexivity.
  - vm_compute. reflexivity.
  - vm_compute. reflexivity.
  - vm_compute. reflexivity.
  - apply String.eqb_neq. vm_compute. reflexivity.
  - apply String.eqb_neq. vm_compute. reflexivity.
  - apply String.eqb_neq. vm_compute. reflexivity.
  - apply String.eqb_neq. vm_compute. reflexivity.
  - exists fuel, wf. auto.
Defined.

Lemma second_download_takes_fast_path_witness :
  ∃ wf : World,
    atomic_download Ex.absolute_path Ex.hostname Ex.pid Ex.today
      1 Ex.uid Ex.handle Ex.download_ok Ex.module_dir 600 Ex.empty_world
    = (Ok Ex.module_dir, wf)
    ∧ ∃ wf' : World,
        atomic_download Ex.absolute_path Ex.hostname Ex.pid Ex.today
          0 Ex.other_uid Ex.handle Ex.download_fails Ex.module_dir 600 wf
        = (Ok Ex.module_dir, wf')
        ∧ fs wf' = fs wf.
Proof.
  edestruct (second_download_takes_fast_path Ex.absolute_path Ex.hostname
               Ex.pid Ex.today 0 Ex.uid Ex.handle Ex.download_ok Ex.module_dir
               600 Ex.empty_world)
    as (wf & Hrun & Hagain).
  - vm_compute. reflexivity.
  - vm_compute. reflexivity.
  - vm_compute. reflexivity.
  - constructor.
  - reflexivity.
  - vm_compute. reflexivity.
  - vm_compute. reflexivity.
  - vm_compute. reflexivity.
  - apply String.eqb_neq. vm_compute. reflexivity.
  - apply String.eqb_neq. vm_compute. reflexivity.
  - apply String.eqb_neq. vm_compute. reflexivity.
  - apply String.eqb_neq. vm_compute. reflexivity.
  - exists wf. split; [exact Hrun|].
    destruct (Hagain 0%nat Ex.other_uid Ex.handle Ex.download_fails 600)
      as (wf' & Hrun' & Hfs & _).
    exists wf'. auto.
Defined.

Lemma quiet_mode_output_witness :
  existsb is_console
    (DownloadManager.log_progress_calls Ex.bytes_to_readable_str Ex.manager
       Ex.quiet_calls).2 = false
  ∧ (DownloadManager.log_progress_calls Ex.bytes_to_readable_str Ex.manager
       Ex.early_calls).2 = []
  ∧ DownloadManager._total_bytes_downloaded
      (DownloadManager.log_progress_calls Ex.bytes_to_readable_str Ex.manager
         Ex.early_calls).1 = 1024.
Proof.
  split.
  - apply (quiet_mode_output Ex.bytes_to_readable_str Ex.manager
             Ex.quiet_calls).
    repeat constructor.
  - destruct (quiet_mode_output Ex.bytes_to_readable_str Ex.manager
                Ex.early_calls) as (_ & _ & Hearly).
    + repeat constructor.
    + destruct Hearly as [Hnone Htotal].
      * repeat constructor; vm_compute; discriminate.
      * split; [exact Hnone|]. rewrite Htotal. reflexivity.
Defined.

Lemma download_and_uncompress_outcomes_witness :
  (∃ self' : DownloadManager.t,
     DownloadManager.download_and_uncompress Ex.bytes_to_readable_str
       Ex.manager Ex.broken_archive
     = (Raise (OpError DataLoss), self',
        (DownloadManager.log_progress_calls Ex.bytes_to_readable_str
           Ex.manager Ex.quiet_calls).2))
  ∧ (∃ self' : DownloadManager.t,
       DownloadManager.download_and_uncompress Ex.bytes_to_readable_str
         Ex.manager Ex.good_archive
       = (Ok tt, self',
          ((DownloadManager.log_progress_calls Ex.bytes_to_readable_str
              Ex.manager Ex.quiet_calls).2 ++
           [DownloadManager.LoggingInfo
              "Downloaded https://example.org/m, Total size: 2510B"])%list)).
Proof.
  split.
  - apply (proj1 (download_and_uncompress_outcomes Ex.bytes_to_readable_str
                    Ex.manager Ex.broken_archive)).
    + reflexivity.
    + discriminate.
  - apply (proj2 (download_and_uncompress_outcomes Ex.bytes_to_readable_str
                    Ex.manager Ex.good_archive)).
    + reflexivity.
    + vm_compute. reflexivity.
Defined.

Lemma tfhub_cache_dir_unset_iff_witness :
  Py.truthy_opt (tfhub_cache_dir Ex.quiet_cfg (Some EmptyString) false) = false
  ∧ Py.truthy_opt (tfhub_cache_dir Ex.quiet_cfg None true) ≠ false.
Proof.
  split.
  - apply (tfhub_cache_dir_unset_iff Ex.quiet_cfg (Some EmptyString) false).
    repeat split; vm_compute; reflexivity.
  - intros Hunset.
    apply (tfhub_cache_dir_unset_iff Ex.quiet_cfg None true) in Hunset
      as (_ & _ & _ & Htemp).
    discriminate.
Defined.

Lemma is_http_protocol_iff_witness :
  is_http_protocol "https://tfhub.dev/google/nnlm/1" = true
  ∧ is_http_protocol "HTTP://tfhub.dev/google/nnlm/1" = false.
Proof.
  split.
  - apply (is_http_protocol_iff "https://tfhub.dev/google/nnlm/1").
    exists "tfhub.dev/google/nnlm/1". right. reflexivity.
  - destruct (is_http_protocol "HTTP://tfhub.dev/google/nnlm/1") eqn:Hhttp;
      [|reflexivity].
    apply (is_http_protocol_iff "HTTP://tfhub.dev/google/nnlm/1") in Hhttp
      as [rest [Hrest|Hrest]]; discriminate.
Defined.

Lemma cert_validation_disabled_iff_witness :
  HttpResolverBase_init Ex.no_cert_cfg = mkSSLContext false CERT_NONE
  ∧ _maybe_disable_cert_validation Ex.upper_cert_cfg create_default_context
    = (create_default_context, false).
Proof.
  split.
  - unfold HttpResolverBase_init.
    rewrite (proj1 (cert_validation_disabled_iff Ex.no_cert_cfg
                      create_default_context)); [reflexivity|].
    vm_compute. reflexivity.
  - apply (proj1 (proj2 (cert_validation_disabled_iff Ex.upper_cert_cfg
                           create_default_context))).
    vm_compute. discriminate.
Defined.

Lemma create_local_module_dir_effect_witness :
  ∃ w' : World,
    create_local_module_dir "/cache" "m" Ex.cached_world
    = (Ok "/cache/m", w')
    ∧ fs w' !! Ex.module_dir = fs Ex.cached_world !! Ex.module_dir
    ∧ ∃ entries, fs w' !! "/cache" = Some (Dir entries).
Proof.
  eexists. split; [vm_compute; reflexivity|].
  edestruct (create_local_module_dir_effect "/cache" "m" Ex.cached_world)
    as (Hframe & Hok & _); [vm_compute; reflexivity|].
  split.
  - apply Hframe. vm_compute. reflexivity.
  - apply (Hok "/cache/m"). reflexivity.
Defined.

Lemma path_resolver_outcomes_witness :
  (PathResolver_call Ex.module_dir Ex.cached_world).1 = Ok Ex.module_dir
  ∧ (PathResolver_call Ex.module_dir Ex.empty_world).1
    = Raise (IOError "/cache/m does not exist.").
Proof.
  split.
  - apply (path_resolver_outcomes Ex.module_dir Ex.cached_world).
    vm_compute. eexists. reflexivity.
  - apply (path_resolver_outcomes Ex.module_dir Ex.empty_world).
    vm_compute. reflexivity.
Defined.

Lemma bytes_accumulate_witness :
  DownloadManager._total_bytes_downloaded
    (DownloadManager.log_progress_calls Ex.bytes_to_readable_str Ex.manager
       Ex.interactive_calls).1 = 124457.
Proof.
  rewrite (proj1 (bytes_accumulate Ex.bytes_to_readable_str Ex.manager
                    Ex.interactive_calls)).
  vm_compute. reflexivity.
Defined.

Lemma console_lines_never_shrink_witness :
  StronglySorted (λ a b : string, (String.length a ≤ String.length b)%nat)
    (console_lines
       (DownloadManager.log_progress_calls Ex.bytes_to_readable_str Ex.manager
          Ex.interactive_calls).2).
Proof.
  exact (proj1 (console_lines_never_shrink Ex.bytes_to_readable_str
                  Ex.manager Ex.interactive_calls)).
Defined.
